(** * Verification of [code/drive.py]

    A shallow embedding of the data pipeline of [drive.py]: the [Drive]
    dataset, the sample transforms ([CenterCrop], [RandomCrop],
    [RandomRotFlip], [RandomNoise], [CreateOnehotLabel]) and
    [TwoStreamBatchSampler] with its iteration helpers.

    Conventions of the embedding:
    - a Python exception is a value of [exn]; a call that can raise returns
      a [result];
    - NumPy's global random state is an explicit [rng] threaded through the
      calls that draw from it (the monad [M]); every statement quantifies
      over all generator states, so it holds for every random outcome;
    - an [ndarray] is a shape together with its indexing function
      [a[i0, ..., ik]]; the transforms that only move, pad or compare
      elements hold them as exact values, and [RandomNoise], which
      multiplies and adds, works on arrays of binary64 numbers ([farray])
      with the rounding of IEEE 754;
    - a sample is a Python dict with string keys: a [gmap string ndarray]
      (a [gmap string farray] for [RandomNoise]). *)

From Stdlib Require Import ZArith QArith Lia.
From Stdlib Require Floats.
From stdpp Require Import base option list gmap strings.

Local Open Scope Z_scope.

(** ** Python exceptions and fallible computations *)

Inductive exn : Type :=
  | KeyError
  | IndexError
  | ValueError
  | TypeError
  | AxisError
  | AssertionError
  | ZeroDivisionError
  | NonTermination
  | OutOfFuel.

(** [NonTermination] and [OutOfFuel] are not Python exceptions: the first
    marks a call that never returns, the second a run of a fuelled loop of
    this model whose fuel was too small. *)

Inductive result (A : Type) : Type :=
  | Ok (a : A)
  | Err (e : exn).
Arguments Ok {A} a.
Arguments Err {A} e.

#[global] Instance result_ret : MRet result := fun A a => Ok a.
#[global] Instance result_bind : MBind result := fun A B f r =>
  match r with
  | Ok a => f a
  | Err e => Err e
  end.

#[global] Instance result_fmap : FMap result := fun A B f r =>
  match r with
  | Ok a => Ok (f a)
  | Err e => Err e
  end.

(** ** The random number generator

    [np.random] is a global generator.  Its state is modelled as two tapes
    of raw draws (integers for [randint] and [permutation], float64 numbers
    for [randn]) read at a common cursor. *)

Record rng : Type := Rng {
  ints : nat -> Z;
  normals : nat -> PrimFloat.float;
  cursor : nat
}.

Definition advance (n : nat) (g : rng) : rng :=
  {| ints := ints g; normals := normals g; cursor := (cursor g + n)%nat |}.

(** Computations that may raise and may draw random numbers. *)
Definition M (A : Type) : Type := rng -> result A * rng.

#[global] Instance M_ret : MRet M := fun A a g => (Ok a, g).
#[global] Instance M_bind : MBind M := fun A B f m g =>
  match m g with
  | (Ok a, g') => f a g'
  | (Err e, g') => (Err e, g')
  end.

Definition lift {A : Type} (r : result A) : M A := fun g => (r, g).

(** ** Python built-ins used by the source *)

(** [l[i]] on a tuple or list. *)
Definition py_index {A : Type} (l : list A) (i : Z) : result A :=
  let n := Z.of_nat (length l) in
  if (i <? - n) || (n <=? i) then Err IndexError
  else match l !! Z.to_nat (if i <? 0 then i + n else i) with
       | Some x => Ok x
       | None => Err IndexError
       end.

(** [int(round(m / 2.))]: Python 3 rounds halves to the even neighbour. *)
Definition py_round_half (m : Z) : Z :=
  let q := m / 2 in
  if Z.even m then q else if Z.even q then q else q + 1.

(** Bounds of the slice [start:stop] on an axis of length [len]
    (the normalisation of [slice.indices], step 1). *)
Definition slice_bound (len default : Z) (b : option Z) : Z :=
  match b with
  | None => default
  | Some v => if v <? 0 then Z.max (v + len) 0 else Z.min v len
  end.

Definition slice_indices (start stop : option Z) (len : nat) : nat * nat :=
  let lo := slice_bound (Z.of_nat len) 0 start in
  let hi := slice_bound (Z.of_nat len) (Z.of_nat len) stop in
  (Z.to_nat lo, Z.to_nat (Z.max (hi - lo) 0)).

(** ** NumPy arrays *)

Record ndarray : Type := NdArray {
  shape : list nat;
  item : list nat -> Q
}.

Definition ndim (a : ndarray) : nat := length (shape a).

(** [a.shape[i]] *)
Definition shape_at (a : ndarray) (i : Z) : result Z :=
  Z.of_nat <$> py_index (shape a) i.

(** [len(a)] *)
Definition np_len (a : ndarray) : result nat :=
  match shape a with
  | n :: _ => Ok n
  | [] => Err TypeError
  end.

(** One component of an index expression [a[...]]. *)
Inductive ix : Type :=
  | Int (i : Z)
  | Slice (start stop : option Z)
  | Fancy (ids : list Z).

Definition wrap_index (n : nat) (i : Z) : nat :=
  Z.to_nat (if i <? 0 then i + Z.of_nat n else i).

Definition index_ok (n : nat) (i : Z) : bool :=
  (- Z.of_nat n <=? i) && (i <? Z.of_nat n).

(** Shape of [a[ixs]] and the map from an index of the result to the index
    of the same element in [a]; [IndexError] when there are more indices
    than axes or an integer index is out of bounds. *)
Fixpoint getitem_view (ixs : list ix) (sh : list nat)
  : result (list nat * (list nat -> list nat)) :=
  match ixs, sh with
  | [], _ => Ok (sh, fun idx => idx)
  | _ :: _, [] => Err IndexError
  | Int i :: ixs', n :: sh' =>
      if index_ok n i then
        v ← getitem_view ixs' sh';
        Ok (v.1, fun idx => wrap_index n i :: v.2 idx)
      else Err IndexError
  | Slice start stop :: ixs', n :: sh' =>
      let '(lo, len) := slice_indices start stop n in
      v ← getitem_view ixs' sh';
      Ok (len :: v.1,
          fun idx => match idx with
                     | j :: idx' => (lo + j)%nat :: v.2 idx'
                     | [] => []
                     end)
  | Fancy ids :: ixs', n :: sh' =>
      if forallb (index_ok n) ids then
        v ← getitem_view ixs' sh';
        Ok (length ids :: v.1,
            fun idx => match idx with
                       | j :: idx' => wrap_index n (nth j ids 0) :: v.2 idx'
                       | [] => []
                       end)
      else Err IndexError
  end.

Definition np_getitem (a : ndarray) (ixs : list ix) : result ndarray :=
  v ← getitem_view ixs (shape a);
  Ok {| shape := v.1; item := fun idx => item a (v.2 idx) |}.

(** [np.pad(a, pad_width, mode='constant', constant_values=0)].
    [pad_width] is normalised as NumPy does: negative entries are refused,
    a single pair is used for every axis, otherwise there must be one pair
    per axis; anything else is a [ValueError]. *)
Definition as_pairs (pad_width : list (Z * Z)) (nd : nat)
  : result (list (nat * nat)) :=
  let to_nats := fun p : Z * Z => (Z.to_nat p.1, Z.to_nat p.2) in
  if existsb (fun p : Z * Z => (p.1 <? 0) || (p.2 <? 0)) pad_width
  then Err ValueError
  else match pad_width with
       | [] => Err ValueError
       | [p] => Ok (replicate nd (to_nats p))
       | _ => if decide (length pad_width = nd)
              then Ok (to_nats <$> pad_width)
              else Err ValueError
       end.

Fixpoint pad_shape (sh : list nat) (pairs : list (nat * nat)) : list nat :=
  match sh, pairs with
  | s :: sh', (b, e) :: pairs' => (b + s + e)%nat :: pad_shape sh' pairs'
  | _, _ => []
  end.

(** Source index of a position of the padded array, [None] in the border. *)
Fixpoint pad_source (sh : list nat) (pairs : list (nat * nat))
  (idx : list nat) : option (list nat) :=
  match sh, pairs, idx with
  | s :: sh', (b, _) :: pairs', i :: idx' =>
      if (b <=? i)%nat && (i <? b + s)%nat
      then cons (i - b)%nat <$> pad_source sh' pairs' idx'
      else None
  | _, _, _ => Some []
  end.

Definition np_pad (a : ndarray) (pad_width : list (Z * Z)) : result ndarray :=
  pairs ← as_pairs pad_width (ndim a);
  Ok {| shape := pad_shape (shape a) pairs;
        item := fun idx => match pad_source (shape a) pairs idx with
                           | Some src => item a src
                           | None => 0%Q
                           end |}.

(** ** Samples *)

Abbreviation sample := (gmap string ndarray).

(** [sample[key]] *)
Definition get_key (s : sample) (key : string) : result ndarray :=
  match s !! key with
  | Some a => Ok a
  | None => Err KeyError
  end.

(** ** [CenterCrop] (drive.py, lines 41-63) *)

(** [(w, h, d) = image.shape] *)
Definition unpack3 (sh : list nat) : result (Z * Z * Z) :=
  match sh with
  | [w; h; d] => Ok (Z.of_nat w, Z.of_nat h, Z.of_nat d)
  | _ => Err ValueError
  end.

Definition CenterCrop_call (output_size : list Z) (s : sample) : result sample :=
  image ← get_key s "image";
  label ← get_key s "label";
  (* pad the sample if necessary *)
  s0 ← shape_at label 0;
  o0 ← py_index output_size 0;
  small ← (if s0 <=? o0 then Ok true
           else s1 ← shape_at label 1;
                o1 ← py_index output_size 1;
                Ok (s1 <=? o1));
  padded ← (if small : bool then
              o0 ← py_index output_size 0;
              s0 ← shape_at label 0;
              let pw := Z.max ((o0 - s0) / 2 + 3) 0 in
              o1 ← py_index output_size 1;
              s1 ← shape_at label 1;
              let ph := Z.max ((o1 - s1) / 2 + 3) 0 in
              image' ← np_pad image [(pw, pw); (ph, ph)];
              label' ← np_pad label [(pw, pw); (ph, ph)];
              Ok (image', label')
            else Ok (image, label));
  let '(image, label) := padded in
  '(w, h, d) ← unpack3 (shape image);
  o0 ← py_index output_size 0;
  let w1 := py_round_half (w - o0) in
  o1 ← py_index output_size 1;
  let h1 := py_round_half (h - o1) in
  o0 ← py_index output_size 0;
  o1 ← py_index output_size 1;
  label ← np_getitem label [Slice (Some w1) (Some (w1 + o0));
                            Slice (Some h1) (Some (h1 + o1))];
  image ← np_getitem image [Slice (Some w1) (Some (w1 + o0));
                            Slice (Some h1) (Some (h1 + o1))];
  Ok ({[ "image" := image; "label" := label ]} : sample).

(** ** More of NumPy: random draws, rotations, flips, arithmetic *)

(** [np.random.randint(low, high)]: [ValueError] when [high <= low]. *)
Definition np_randint (low high : Z) : M Z := fun g =>
  if high <=? low then (Err ValueError, g)
  else (Ok (low + ints g (cursor g) mod (high - low)), advance 1 g).

(** [np.random.permutation(l)]: each draw selects the next element among
    those that remain. *)
Fixpoint shuffle (draw : nat -> Z) (c fuel : nat) (l : list Z) : list Z :=
  match fuel with
  | O => []
  | S fuel' =>
      let j := Z.to_nat (draw c mod Z.of_nat (length l)) in
      match l !! j with
      | Some x => x :: shuffle draw (S c) fuel' (delete j l)
      | None => []
      end
  end.

Definition np_permutation (l : list Z) : M (list Z) := fun g =>
  (Ok (shuffle (ints g) (cursor g) (length l) l), advance (length l) g).

(** Row-major offset of an index. *)
Fixpoint ravel (sh idx : list nat) : nat :=
  match sh, idx with
  | _ :: sh', i :: idx' => (i * foldr Nat.mul 1 sh' + ravel sh' idx')%nat
  | _, _ => O
  end.

(** [np.rot90(m, axes=(1, 2))]: [out[c, i, j] = m[c, j, n2 - 1 - i]]. *)
Definition np_rot90 (m : ndarray) : result ndarray :=
  match shape m with
  | d :: n1 :: n2 :: rest =>
      Ok {| shape := d :: n2 :: n1 :: rest;
            item := fun idx =>
              match idx with
              | c :: i :: j :: r => item m (c :: j :: (n2 - 1 - i)%nat :: r)
              | _ => item m idx
              end |}
  | _ => Err ValueError
  end.

(** Index of the source element of [np.flip(m, axis)[idx]]. *)
Definition flip_index (sh : list nat) (k : nat) (idx : list nat) : list nat :=
  match sh !! k with
  | Some n => alter (fun i => (n - 1 - i)%nat) k idx
  | None => idx
  end.

(** [np.flip(m, axis=axis).copy()] *)
Definition np_flip (m : ndarray) (axis : Z) : result ndarray :=
  if index_ok (ndim m) axis then
    Ok {| shape := shape m;
          item := fun idx =>
            item m (flip_index (shape m) (wrap_index (ndim m) axis) idx) |}
  else Err AxisError.

(** Broadcasting.  Shapes are aligned on their last axes. *)
Fixpoint broadcast_rev (s1 s2 : list nat) : result (list nat) :=
  match s1, s2 with
  | [], _ => Ok s2
  | _, [] => Ok s1
  | a :: s1', b :: s2' =>
      if (a =? b)%nat then cons a <$> broadcast_rev s1' s2'
      else if (a =? 1)%nat then cons b <$> broadcast_rev s1' s2'
      else if (b =? 1)%nat then cons a <$> broadcast_rev s1' s2'
      else Err ValueError
  end.

Definition broadcast_shapes (s1 s2 : list nat) : result (list nat) :=
  reverse <$> broadcast_rev (reverse s1) (reverse s2).

Fixpoint bsrc_rev (sh idx : list nat) : list nat :=
  match sh, idx with
  | s :: sh', i :: idx' => (if (s =? 1)%nat then O else i) :: bsrc_rev sh' idx'
  | _, _ => []
  end.

(** Index in an operand of shape [sh] of the element used at position [idx]
    of the broadcast result. *)
Definition broadcast_src (sh idx : list nat) : list nat :=
  reverse (bsrc_rev (reverse sh) (reverse idx)).

Definition np_map (f : Q -> Q) (a : ndarray) : ndarray :=
  {| shape := shape a; item := fun idx => f (item a idx) |}.

(** [np.zeros(sh)]: a negative dimension is a [ValueError]. *)
Definition np_zeros (sh : list Z) : result ndarray :=
  if existsb (fun n => n <? 0) sh then Err ValueError
  else Ok {| shape := Z.to_nat <$> sh; item := fun _ => 0%Q |}.

(** [(a == i).astype(np.float32)] *)
Definition np_eq_mask (a : ndarray) (i : Z) : ndarray :=
  np_map (fun x => if Qeq_bool x (inject_Z i) then 1%Q else 0%Q) a.

(** Assignment [a[i, :, :, :] = v].  The value is broadcast to the shape of
    the target row; NumPy first drops leading axes of length 1 that the
    target does not have. *)
Fixpoint strip_ones (n : nat) (sh : list nat) : list nat :=
  match n, sh with
  | S n', 1%nat :: sh' => strip_ones n' sh'
  | _, _ => sh
  end.

Fixpoint fits_rev (src tgt : list nat) : bool :=
  match src, tgt with
  | [], _ => true
  | _ :: _, [] => false
  | a :: src', b :: tgt' => ((a =? b)%nat || (a =? 1)%nat) && fits_rev src' tgt'
  end.

Definition np_setitem_row (a : ndarray) (i : Z) (v : ndarray) : result ndarray :=
  match shape a with
  | n :: ((_ :: _ :: _ :: _) as tgt) =>
      if index_ok n i then
        let src := strip_ones (length (shape v) - length tgt) (shape v) in
        let lead := (length (shape v) - length src)%nat in
        if fits_rev (reverse src) (reverse tgt) then
          Ok {| shape := shape a;
                item := fun idx =>
                  match idx with
                  | i' :: r =>
                      if (i' =? wrap_index n i)%nat
                      then item v (replicate lead O ++ broadcast_src src r)
                      else item a idx
                  | [] => item a idx
                  end |}
        else Err ValueError
      else Err IndexError
  | _ => Err IndexError
  end.

(** [idx] is a valid index of an array of shape [sh]. *)
Definition in_bounds (sh idx : list nat) : Prop := Forall2 lt idx sh.

(** [np.sum(a, axis=0)] *)
Definition np_sum_axis0 (a : ndarray) : ndarray :=
  match shape a with
  | n :: sh =>
      {| shape := sh;
         item := fun idx =>
           foldr Qplus 0%Q ((fun ch => item a (ch :: idx)) <$> seq 0 n) |}
  | [] => a
  end.

(** ** [RandomCrop] (drive.py, lines 66-111) *)

(** The padding step (lines 84-95). *)
Definition RandomCrop_pad (output_size : list Z) (image label : ndarray)
  (sdf : option ndarray) : result (ndarray * ndarray * option ndarray) :=
  s0 ← shape_at label 0;
  o0 ← py_index output_size 0;
  small ← (if s0 <=? o0 then Ok true
           else s1 ← shape_at label 1;
                o1 ← py_index output_size 1;
                if s1 <=? o1 then Ok true
                else s2 ← shape_at label 2;
                     o2 ← py_index output_size 2;
                     Ok (s2 <=? o2));
  if small : bool then
    o0 ← py_index output_size 0;
    s0 ← shape_at label 0;
    let pd := Z.max ((o0 - s0) / 2 + 3) 0 in
    o1 ← py_index output_size 1;
    s1 ← shape_at label 1;
    let pw := Z.max ((o1 - s1) / 2 + 3) 0 in
    o2 ← py_index output_size 2;
    s2 ← shape_at label 2;
    let ph := Z.max ((o2 - s2) / 2 + 3) 0 in
    image' ← np_pad image [(0, 0); (pw, pw); (ph, ph)];
    label' ← np_pad label [(0, 0); (pw, pw); (ph, ph)];
    sdf' ← match sdf with
           | Some a => Some <$> np_pad a [(0, 0); (pw, pw); (ph, ph)]
           | None => Ok None
           end;
    Ok (image', label', sdf')
  else Ok (image, label, sdf).

(** [(d, w, h) = image.shape] *)
Definition unpack_dwh (sh : list nat) : result (Z * Z * Z) :=
  match sh with
  | [d; w; h] => Ok (Z.of_nat d, Z.of_nat w, Z.of_nat h)
  | _ => Err ValueError
  end.

(** [a[:, w1:w1 + e1, h1:h1 + e2]] *)
Definition crop12 (a : ndarray) (w1 h1 e1 e2 : Z) : result ndarray :=
  np_getitem a [Slice None None;
                Slice (Some w1) (Some (w1 + e1));
                Slice (Some h1) (Some (h1 + e2))].

(** The draw of the offsets and the slicing (lines 98-111). *)
Definition RandomCrop_crop (output_size : list Z) (image label : ndarray)
  (sdf : option ndarray) : M sample :=
  '(d, w, h) ← lift (unpack_dwh (shape image));
  o1 ← lift (py_index output_size 1);
  w1 ← np_randint 0 (w - o1);
  o2 ← lift (py_index output_size 2);
  h1 ← np_randint 0 (h - o2);
  o1 ← lift (py_index output_size 1);
  o2 ← lift (py_index output_size 2);
  label ← lift (crop12 label w1 h1 o1 o2);
  image ← lift (crop12 image w1 h1 o1 o2);
  match sdf with
  | Some a =>
      sdf ← lift (crop12 a w1 h1 o1 o2);
      mret ({[ "image" := image; "label" := label; "sdf" := sdf ]} : sample)
  | None =>
      mret ({[ "image" := image; "label" := label ]} : sample)
  end.

Definition RandomCrop_call (output_size : list Z) (with_sdf : bool)
  (s : sample) : M sample :=
  image ← lift (get_key s "image");
  label ← lift (get_key s "label");
  sdf ← lift (if with_sdf then Some <$> get_key s "sdf" else Ok None);
  '(image, label, sdf) ← lift (RandomCrop_pad output_size image label sdf);
  RandomCrop_crop output_size image label sdf.

(** ** [RandomRotFlip] (drive.py, lines 114-132) *)

(** The loop [for i in range(k)] of line 124. *)
Fixpoint rot_loop (k : nat) (image label : ndarray)
  : result (ndarray * ndarray) :=
  match k with
  | O => Ok (image, label)
  | S k' =>
      image' ← np_rot90 image;
      label' ← np_rot90 label;
      rot_loop k' image' label'
  end.

Definition RandomRotFlip_call (s : sample) : M sample :=
  image ← lift (get_key s "image");
  label ← lift (get_key s "label");
  k ← np_randint 0 4;
  '(image, label) ← lift (rot_loop (Z.to_nat k) image label);
  axis ← np_randint 0 2;
  image ← lift (np_flip image axis);
  label ← lift (np_flip label axis);
  mret ({[ "image" := image; "label" := label ]} : sample).

(** What the call does to one array once [k] and [axis] are drawn: [k]
    quarter turns about axes (1, 2), then the flip along [axis]. *)
Fixpoint rot90_times (k : nat) (a : ndarray) : result ndarray :=
  match k with
  | O => Ok a
  | S k' => a' ← np_rot90 a; rot90_times k' a'
  end.

Definition rot_flip (k : nat) (axis : Z) (a : ndarray) : result ndarray :=
  a' ← rot90_times k a;
  np_flip a' axis.

(** ** [RandomNoise] (drive.py, lines 135-145) *)

(** [RandomNoise] is the one transform that computes with the elements of
    its arrays, and it computes in float64: here an array holds binary64
    numbers, and every product and sum rounds as IEEE 754 prescribes. *)
Record farray : Type := FArray {
  fshape : list nat;
  fitem : list nat -> PrimFloat.float
}.

Abbreviation fsample := (gmap string farray).

(** [sample[key]] *)
Definition fget_key (s : fsample) (key : string) : result farray :=
  match s !! key with
  | Some a => Ok a
  | None => Err KeyError
  end.

(** [float(z)]: the binary64 number nearest to an integer. *)
Definition float_of_Z (z : Z) : PrimFloat.float :=
  FloatOps.SF2Prim
    (SpecFloat.binary_normalize FloatOps.prec FloatOps.emax z 0 false).

(** [np.random.randn(d0, ..., dk)] *)
Definition np_randn (sh : list nat) : M farray := fun g =>
  (Ok {| fshape := sh;
         fitem := fun idx => normals g (cursor g + ravel sh idx)%nat |},
   advance (foldr Nat.mul 1 sh)%nat g).

Definition np_fmap (f : PrimFloat.float -> PrimFloat.float) (a : farray)
  : farray :=
  {| fshape := fshape a; fitem := fun idx => f (fitem a idx) |}.

(** NumPy's [_NPY_MAX] and [_NPY_MIN] on floats: a NaN in the first argument
    is returned, and otherwise [a > b ? a : b] and [a < b ? a : b]. *)
Definition npy_max (a b : PrimFloat.float) : PrimFloat.float :=
  if PrimFloat.is_nan a then a else if PrimFloat.ltb b a then a else b.

Definition npy_min (a b : PrimFloat.float) : PrimFloat.float :=
  if PrimFloat.is_nan a then a else if PrimFloat.ltb a b then a else b.

(** [_NPY_CLIP(x, lo, hi)], the element operation of the [clip] ufunc. *)
Definition npy_clip (x lo hi : PrimFloat.float) : PrimFloat.float :=
  npy_min (npy_max x lo) hi.

(** [np.clip(a, lo, hi)] with scalar bounds *)
Definition np_clip (a : farray) (lo hi : PrimFloat.float) : farray :=
  np_fmap (fun x => npy_clip x lo hi) a.

(** [a + b] on float64 arrays: broadcast, then add with rounding. *)
Definition np_add (a b : farray) : result farray :=
  sh ← broadcast_shapes (fshape a) (fshape b);
  Ok {| fshape := sh;
        fitem := fun idx =>
          PrimFloat.add (fitem a (broadcast_src (fshape a) idx))
                        (fitem b (broadcast_src (fshape b) idx)) |}.

(** The bounds [-2*self.sigma] and [2*self.sigma] of the clip. *)
Definition noise_lo (sigma : PrimFloat.float) : PrimFloat.float :=
  PrimFloat.mul (float_of_Z (-2)) sigma.

Definition noise_hi (sigma : PrimFloat.float) : PrimFloat.float :=
  PrimFloat.mul (float_of_Z 2) sigma.

Definition RandomNoise_call (mu sigma : PrimFloat.float) (s : fsample)
  : M fsample :=
  image ← lift (fget_key s "image");
  label ← lift (fget_key s "label");
  d0 ← lift (py_index (fshape image) 0);
  d1 ← lift (py_index (fshape image) 1);
  d2 ← lift (py_index (fshape image) 2);
  z ← np_randn [d0; d1; d2];
  let noise := np_clip (np_fmap (PrimFloat.mul sigma) z)
                       (noise_lo sigma) (noise_hi sigma) in
  let noise := np_fmap (fun x => PrimFloat.add x mu) noise in
  image ← lift (np_add image noise);
  mret ({[ "image" := image; "label" := label ]} : fsample).

(** ** [CreateOnehotLabel] (drive.py, lines 148-157) *)

(** The loop [for i in range(num_classes)] of lines 155-156. *)
Fixpoint onehot_loop (classes : list Z) (label onehot_label : ndarray)
  : result ndarray :=
  match classes with
  | [] => Ok onehot_label
  | i :: classes' =>
      onehot_label' ← np_setitem_row onehot_label i (np_eq_mask label i);
      onehot_loop classes' label onehot_label'
  end.

(** [range(n)] *)
Definition py_range (n : Z) : list Z := Z.of_nat <$> seq 0 (Z.to_nat n).

Definition CreateOnehotLabel_call (num_classes : Z) (s : sample)
  : result sample :=
  image ← get_key s "image";
  label ← get_key s "label";
  s0 ← shape_at label 0;
  s1 ← shape_at label 1;
  s2 ← shape_at label 2;
  onehot_label ← np_zeros [num_classes; s0; s1; s2];
  onehot_label ← onehot_loop (py_range num_classes) label onehot_label;
  Ok ({[ "image" := image; "label" := label;
         "onehot_label" := onehot_label ]} : sample).

(** ** The [Drive] dataset (drive.py, lines 13-38) *)

Record Drive : Type := {
  transform : option (sample -> M sample);
  image_list : ndarray;
  label_list : ndarray;
  mask_list : ndarray
}.

(** [__init__].  [load_dataset] is not part of this file: [loaded] is the
    triple it returned. *)
Definition Drive_init (loaded : ndarray * ndarray * ndarray)
  (transform : option (sample -> M sample)) : M Drive :=
  let '(image_list, label_list, mask_list) := loaded in
  n ← lift (np_len image_list);
  shuffle_ids ← np_permutation (py_range (Z.of_nat n));
  image_list ← lift (np_getitem image_list
    [Fancy shuffle_ids; Slice None None; Slice None None; Slice None None]);
  label_list ← lift (np_getitem label_list
    [Fancy shuffle_ids; Slice None None; Slice None None; Slice None None]);
  mask_list ← lift (np_getitem mask_list
    [Fancy shuffle_ids; Slice None None; Slice None None; Slice None None]);
  mret {| transform := transform; image_list := image_list;
          label_list := label_list; mask_list := mask_list |}.

(** [__len__] *)
Definition Drive_len (self : Drive) : result nat := np_len (image_list self).

(** [__getitem__]; the dataset object is returned next to the sample, as it
    is after the call. *)
Definition Drive_getitem (self : Drive) (idx : Z) : M (sample * Drive) :=
  _ ← lift (np_getitem (image_list self) [Int idx]);
  image ← lift (np_getitem (image_list self)
    [Int idx; Slice None None; Slice None None; Slice None None]);
  label ← lift (np_getitem (label_list self)
    [Int idx; Slice (Some 0) (Some 1); Slice None None; Slice None None]);
  let s : sample := {[ "image" := image; "label" := label ]} in
  match transform self with
  | Some t => s' ← t s; mret (s', self)
  | None => mret (s, self)
  end.

(** [__getitem__(idx)] returns the sample stored at position [i]: the whole
    image, the first channel of the label, passed through the transform
    when there is one, and the dataset itself is as it was. *)
Definition Drive_getitem_returns (self : Drive) (idx : Z) (g : rng) (i : nat)
  : Prop :=
  exists image label,
    Drive_getitem self idx g =
      match transform self with
      | Some t =>
          (s' ← t ({[ "image" := image; "label" := label ]} : sample);
           mret (s', self)) g
      | None =>
          (Ok (({[ "image" := image; "label" := label ]} : sample), self), g)
      end
    /\ shape image = tail (shape (image_list self))
    /\ (forall p, item image p = item (image_list self) (i :: p))
    /\ (exists n channels rest,
          shape (label_list self) = n :: channels :: rest
          /\ shape label = Nat.min 1 channels :: rest)
    /\ (forall ch p, item label (ch :: p) = item (label_list self) (i :: ch :: p)).

(** ** [TwoStreamBatchSampler] (drive.py, lines 177-221) *)

Record TwoStreamBatchSampler : Type := {
  primary_indices : list Z;
  secondary_indices : list Z;
  secondary_batch_size : Z;
  primary_batch_size : Z
}.

(** [assert b] *)
Definition py_assert (b : bool) : result unit :=
  if b then Ok () else Err AssertionError.

Definition TwoStreamBatchSampler_init (primary_indices secondary_indices : list Z)
  (batch_size secondary_batch_size : Z) : result TwoStreamBatchSampler :=
  let self := {| primary_indices := primary_indices;
                 secondary_indices := secondary_indices;
                 secondary_batch_size := secondary_batch_size;
                 primary_batch_size := batch_size - secondary_batch_size |} in
  _ ← py_assert ((primary_batch_size self <=? Z.of_nat (length primary_indices))
                 && (0 <? primary_batch_size self));
  _ ← py_assert ((secondary_batch_size <=? Z.of_nat (length secondary_indices))
                 && (0 <? secondary_batch_size));
  Ok self.

(** [__len__] *)
Definition TwoStreamBatchSampler_len (self : TwoStreamBatchSampler) : result Z :=
  if primary_batch_size self =? 0 then Err ZeroDivisionError
  else Ok (Z.of_nat (length (primary_indices self)) / primary_batch_size self).

Definition iterate_once (iterable : list Z) : M (list Z) :=
  np_permutation iterable.

(** Iterators are state machines: [next] returns [None] for
    [StopIteration], otherwise the item and the iterator's new state. *)

(** [next] on [iter(array)]; the state is what is left of the array. *)
Definition array_next (st : list Z) : M (option (Z * list Z)) :=
  mret (match st with
        | x :: st' => Some (x, st')
        | [] => None
        end).

(** [next] on [iterate_eternally(indices)]; the state is the unread part
    of the current shuffle.  Chaining empty shuffles never yields. *)
Definition iterate_eternally_next (indices : list Z) (buf : list Z)
  : M (option (Z * list Z)) :=
  match buf with
  | x :: buf' => mret (Some (x, buf'))
  | [] =>
      p ← np_permutation indices;
      match p with
      | x :: buf' => mret (Some (x, buf'))
      | [] => lift (Err NonTermination)
      end
  end.

(** One tuple of [zip(it, it, ..., it)] with [n] references to the same
    iterator: [n] successive items, or [StopIteration] as soon as one of
    them is missing. *)
Fixpoint pull {St : Type} (next : St -> M (option (Z * St))) (n : nat)
  (st : St) : M (option (list Z * St)) :=
  match n with
  | O => mret (Some ([], st))
  | S n' =>
      r ← next st;
      match r with
      | None => mret None
      | Some (x, st') =>
          r' ← pull next n' st';
          match r' with
          | None => mret None
          | Some (xs, st'') => mret (Some (x :: xs, st''))
          end
      end
  end.

(** [next] on [grouper(iterable, n)]: [zip()] of no iterator is empty. *)
Definition grouper_next {St : Type} (next : St -> M (option (Z * St)))
  (n : Z) (st : St) : M (option (list Z * St)) :=
  if n <=? 0 then mret None else pull next (Z.to_nat n) st.

(** [__iter__]: the state of the generator it returns is the state of the
    two underlying iterators. *)
Definition TwoStreamBatchSampler_iter (self : TwoStreamBatchSampler)
  : M (list Z * list Z) :=
  primary_iter ← iterate_once (primary_indices self);
  mret (primary_iter, []).

(** [next] on the generator of [__iter__]. *)
Definition TwoStreamBatchSampler_next (self : TwoStreamBatchSampler)
  (st : list Z * list Z) : M (option (list Z * (list Z * list Z))) :=
  a ← grouper_next array_next (primary_batch_size self) st.1;
  match a with
  | None => mret None
  | Some (primary_batch, prim') =>
      b ← grouper_next (iterate_eternally_next (secondary_indices self))
                       (secondary_batch_size self) st.2;
      match b with
      | None => mret None
      | Some (secondary_batch, buf') =>
          mret (Some (primary_batch ++ secondary_batch, (prim', buf')))
      end
  end.

(** [list(it)]: the items of an iterator until [StopIteration]. *)
Fixpoint drain {St A : Type} (fuel : nat) (next : St -> M (option (A * St)))
  (st : St) : M (list A) :=
  match fuel with
  | O => lift (Err OutOfFuel)
  | S fuel' =>
      r ← next st;
      match r with
      | None => mret []
      | Some (a, st') => l ← drain fuel' next st'; mret (a :: l)
      end
  end.

(** One full iteration of the sampler: [list(iter(self))]. *)
Definition TwoStreamBatchSampler_epoch (self : TwoStreamBatchSampler)
  : M (list (list Z)) :=
  st ← TwoStreamBatchSampler_iter self;
  drain (S (length (primary_indices self))) (TwoStreamBatchSampler_next self) st.

(** ** Concrete inputs used by the examples below *)

(** The float64 quotient of two integers, for constants such as [0.1]. *)
Definition float_of_Q (q : Q) : PrimFloat.float :=
  PrimFloat.div (float_of_Z (Qnum q)) (float_of_Z (Z.pos (Qden q))).

(** A generator state. *)
Definition g0 : rng :=
  {| ints := fun k => Z.of_nat k * 7 + 3;
     normals := fun k => float_of_Q ((inject_Z (Z.of_nat k) - 5) / 2);
     cursor := 0 |}.

(** The array of the given shape holding [0, 1, 2, ...] in row-major order. *)
Definition arange (sh : list nat) : ndarray :=
  {| shape := sh; item := fun idx => inject_Z (Z.of_nat (ravel sh idx)) |}.

(** The sampler of the example of the specification. *)
Definition sampler0 : TwoStreamBatchSampler :=
  {| primary_indices := [0; 1; 2; 3; 4];
     secondary_indices := [10; 11];
     secondary_batch_size := 2;
     primary_batch_size := 2 |}.

(** A sample smaller than the crop and one larger than it. *)
Definition sample_small : sample :=
  {[ "image" := arange [4; 4; 1]%nat; "label" := arange [4; 4; 1]%nat ]}.

Definition sample_large : sample :=
  {[ "image" := arange [10; 9; 3]%nat; "label" := arange [10; 9; 3]%nat ]}.

(** A sample of one channel, and one whose image is smaller than its label. *)
Definition sample_chw : sample :=
  {[ "image" := arange [1; 10; 9]%nat; "label" := arange [1; 10; 9]%nat ]}.

Definition sample_mismatch : sample :=
  {[ "image" := arange [1; 2; 2]%nat; "label" := arange [1; 10; 9]%nat ]}.

(** A sample that also carries a signed distance field. *)
Definition sample_sdf : sample :=
  {[ "image" := arange [1; 2; 2]%nat; "label" := arange [1; 2; 2]%nat;
     "sdf" := arange [1; 2; 2]%nat ]}.

(** The float64 array of the given shape filled with one value. *)
Definition np_full (sh : list nat) (v : PrimFloat.float) : farray :=
  {| fshape := sh; fitem := fun _ => v |}.

(** A sample of a single voxel, of value 0.0. *)
Definition sample_unit : fsample :=
  {[ "image" := np_full [1; 1; 1]%nat (float_of_Z 0);
     "label" := np_full [1; 1; 1]%nat (float_of_Z 0) ]}.

(** A sample of two voxels, of value 4.0. *)
Definition sample_fours : fsample :=
  {[ "image" := np_full [1; 1; 2]%nat (float_of_Z 4);
     "label" := np_full [1; 1; 2]%nat (float_of_Z 1) ]}.

(** A generator whose every normal draw is 3.0. *)
Definition g3 : rng :=
  {| ints := fun _ => 0; normals := fun _ => float_of_Z 3; cursor := 0 |}.

(** What [load_dataset] returns for two samples of one channel. *)
Definition loaded0 : ndarray * ndarray * ndarray :=
  (arange [2; 1; 2; 2]%nat, arange [2; 3; 2; 2]%nat, arange [2; 1; 2; 2]%nat).

(** ** Notions used to describe what the transforms return *)

(** [a'] is the 3-axis array [a] with [pw] zeros before and after axis 1 and
    [ph] zeros before and after axis 2. *)
Definition padded_by (pw ph : nat) (a a' : ndarray) : Prop :=
  exists d w h,
    shape a = [d; w; h]
    /\ shape a' = [d; pw + w + pw; ph + h + ph]%nat
    /\ forall c i j,
         (c < d)%nat -> (i < pw + w + pw)%nat -> (j < ph + h + ph)%nat ->
         item a' [c; i; j] =
           if decide ((pw <= i < pw + w)%nat /\ (ph <= j < ph + h)%nat)
           then item a [c; i - pw; j - ph]%nat
           else 0%Q.

(** [a''] is the window of [a'] of extents [e1] and [e2] that starts at
    [w1] on axis 1 and at [h1] on axis 2, axis 0 kept whole. *)
Definition window_of (w1 h1 e1 e2 : nat) (a' a'' : ndarray) : Prop :=
  exists d w h,
    shape a' = [d; w; h]
    /\ (w1 + e1 <= w)%nat /\ (h1 + e2 <= h)%nat
    /\ shape a'' = [d; e1; e2]
    /\ forall c i j, item a'' [c; i; j] = item a' [c; w1 + i; h1 + j]%nat.

(** [a'] holds the elements of [a] in another arrangement: every position
    of [a'] shows the element of a position of [a], different positions
    show different ones, and the axes have the same lengths up to order. *)
Definition rearranged (a a' : ndarray) : Prop :=
  shape a' ≡ₚ shape a
  /\ exists f : list nat -> list nat,
       (forall idx, in_bounds (shape a') idx ->
          in_bounds (shape a) (f idx) /\ item a' idx = item a (f idx))
       /\ (forall idx1 idx2,
             in_bounds (shape a') idx1 -> in_bounds (shape a') idx2 ->
             f idx1 = f idx2 -> idx1 = idx2).

(** * Properties *)

(** ** Tactics and general facts *)

Ltac unfold_M :=
  unfold mbind, mret, M_bind, M_ret, result_bind, result_ret, fmap,
    result_fmap, lift in *.

Lemma shuffle_Permutation (draw : nat -> Z) (fuel c : nat) (l : list Z) :
  length l = fuel -> shuffle draw c fuel l ≡ₚ l.
Proof.
  revert c l. induction fuel as [|fuel IH]; intros c l Hlen.
  - destruct l; [reflexivity | discriminate].
  - simpl.
    set (j := Z.to_nat (draw c mod Z.of_nat (length l))).
    assert (Hj : (j < length l)%nat).
    { subst j. pose proof (Z.mod_pos_bound (draw c) (Z.of_nat (length l))). lia. }
    destruct (lookup_lt_is_Some_2 l j Hj) as [x Hx]. rewrite Hx.
    rewrite (delete_Permutation l j x Hx) at 2.
    constructor. apply IH.
    rewrite length_delete by eauto. lia.
Qed.

Lemma np_permutation_spec (l : list Z) (g : rng) :
  exists p, np_permutation l g = (Ok p, advance (length l) g) /\ p ≡ₚ l.
Proof.
  eexists. split; [reflexivity |]. by apply shuffle_Permutation.
Qed.

Lemma NoDup_of_submseteq {A : Type} (l k : list A) :
  l ⊆+ k -> NoDup k -> NoDup l.
Proof.
  intros [r Hr]%submseteq_Permutation Hk.
  rewrite Hr in Hk. by apply NoDup_app in Hk as [? _].
Qed.

(** ** The two-stream sampler *)

Section sampler.

Variable self : TwoStreamBatchSampler.
Local Abbreviation n := (Z.to_nat (primary_batch_size self)).
Local Abbreviation m := (Z.to_nat (secondary_batch_size self)).
Hypothesis primary_pos : 0 < primary_batch_size self.
Hypothesis secondary_pos : 0 < secondary_batch_size self.
Hypothesis secondary_nonempty : secondary_indices self <> [].

(** A chunk of the primary stream: the next [k] items when there are
    that many, the end of the stream otherwise. *)
Lemma pull_array (k : nat) (st : list Z) (g : rng) :
  pull array_next k st g =
    (Ok (if decide (k <= length st)%nat then Some (take k st, drop k st)
         else None), g).
Proof.
  revert st. induction k as [|k IH]; intros st; simpl.
  - destruct st; reflexivity.
  - unfold_M. destruct st as [|x st]; simpl; [reflexivity |].
    rewrite IH. repeat case_decide; try lia; reflexivity.
Qed.

(** The secondary stream never ends and only serves secondary indices. *)
Lemma iterate_eternally_next_yields (buf : list Z) (g : rng) :
  Forall (.∈ secondary_indices self) buf ->
  exists x buf' g',
    iterate_eternally_next (secondary_indices self) buf g
      = (Ok (Some (x, buf')), g')
    /\ x ∈ secondary_indices self
    /\ Forall (.∈ secondary_indices self) buf'.
Proof.
  intros Hbuf. destruct buf as [|x buf]; simpl.
  - destruct (np_permutation_spec (secondary_indices self) g) as (p & Hp & Hperm).
    unfold_M. rewrite Hp.
    destruct p as [|x p].
    + apply Permutation_nil_l in Hperm. by symmetry in Hperm.
    + exists x, p, (advance (length (secondary_indices self)) g).
      split; [reflexivity |].
      assert (Hall : Forall (.∈ secondary_indices self) (x :: p)).
      { apply Forall_forall. intros y Hy. by rewrite <- Hperm. }
      by inversion Hall.
  - inversion Hbuf; subst. by exists x, buf, g.
Qed.

Lemma pull_eternal (k : nat) (buf : list Z) (g : rng) :
  Forall (.∈ secondary_indices self) buf ->
  exists xs buf' g',
    pull (iterate_eternally_next (secondary_indices self)) k buf g
      = (Ok (Some (xs, buf')), g')
    /\ length xs = k
    /\ Forall (.∈ secondary_indices self) xs
    /\ Forall (.∈ secondary_indices self) buf'.
Proof.
  revert buf g. induction k as [|k IH]; intros buf g Hbuf; simpl.
  - by exists [], buf, g.
  - destruct (iterate_eternally_next_yields buf g Hbuf)
      as (x & buf1 & g1 & Hnext & Hx & Hbuf1).
    destruct (IH buf1 g1 Hbuf1) as (xs & buf2 & g2 & Hpull & Hlen & Hxs & Hbuf2).
    exists (x :: xs), buf2, g2. unfold_M. rewrite Hnext, Hpull.
    repeat split; simpl; auto.
Qed.

(** One step of the generator of [__iter__]. *)
Lemma TwoStreamBatchSampler_next_step (prim buf : list Z) (g : rng) :
  Forall (.∈ secondary_indices self) buf ->
  if decide (n <= length prim)%nat then
    exists xs buf' g',
      TwoStreamBatchSampler_next self (prim, buf) g
        = (Ok (Some (take n prim ++ xs, (drop n prim, buf'))), g')
      /\ length xs = m
      /\ Forall (.∈ secondary_indices self) xs
      /\ Forall (.∈ secondary_indices self) buf'
  else TwoStreamBatchSampler_next self (prim, buf) g = (Ok None, g).
Proof.
  intros Hbuf.
  unfold TwoStreamBatchSampler_next, grouper_next. simpl.
  destruct (Z.leb_spec (primary_batch_size self) 0) as [|_]; [lia |].
  destruct (Z.leb_spec (secondary_batch_size self) 0) as [|_]; [lia |].
  unfold_M. rewrite pull_array.
  case_decide as Hk; [|reflexivity].
  destruct (pull_eternal m buf g Hbuf) as (xs & buf' & g1 & Hpull & Hlen & Hxs & Hbuf').
  rewrite Hpull. by exists xs, buf', g1.
Qed.

(** What draining the generator yields from a given state. *)
Lemma drain_batches (fuel : nat) (prim buf : list Z) (g : rng) :
  (length prim < fuel)%nat ->
  Forall (.∈ secondary_indices self) buf ->
  exists batches rest g',
    drain fuel (TwoStreamBatchSampler_next self) (prim, buf) g
      = (Ok batches, g')
    /\ Forall (fun b => length b = (n + m)%nat) batches
    /\ concat (take n <$> batches) ++ rest = prim
    /\ (length rest < n)%nat
    /\ Forall (fun b => Forall (.∈ secondary_indices self) (drop n b)) batches.
Proof.
  assert (Hn : (0 < n)%nat) by lia.
  revert prim buf g. induction fuel as [|fuel IH]; intros prim buf g Hfuel Hbuf;
    [lia |].
  pose proof (TwoStreamBatchSampler_next_step prim buf g Hbuf) as Hstep.
  cbn [drain]. unfold mbind at 1, M_bind.
  case_decide as Hk.
  - destruct Hstep as (xs & buf' & g1 & -> & Hlen & Hxs & Hbuf').
    destruct (IH (drop n prim) buf' g1) as (bs & rest & g2 & Hdrain & Hlens & Hcat & Hrest & Hsec);
      [rewrite length_drop; lia | done |].
    unfold mbind, M_bind. rewrite Hdrain. exists ((take n prim ++ xs) :: bs), rest, g2.
    assert (Htl : length (take n prim) = n) by (rewrite length_take; lia).
    split; [reflexivity |]. split; [|split; [|split]].
    + constructor; [|done]. rewrite length_app. lia.
    + rewrite fmap_cons. cbn [concat]. rewrite take_app_length' by done.
      rewrite <- (assoc_L (++)), Hcat. apply take_drop.
    + done.
    + constructor; [|done]. by rewrite drop_app_length'.
  - rewrite Hstep. exists [], prim, g. repeat split; auto. lia.
Qed.

Lemma primary_parts_length (batches : list (list Z)) :
  Forall (fun b => length b = (n + m)%nat) batches ->
  length (concat (take n <$> batches)) = (n * length batches)%nat.
Proof.
  induction 1 as [|b bs Hb _ IH]; [simpl; lia |].
  rewrite fmap_cons. cbn [concat].
  rewrite length_app, length_take, IH. cbn [length]. lia.
Qed.

(** One epoch: it ends, and its batches are as the class documents. *)
Lemma epoch_batches (g : rng) :
  exists batches g',
    TwoStreamBatchSampler_epoch self g = (Ok batches, g')
    /\ Z.of_nat (length batches)
       = Z.of_nat (length (primary_indices self)) / primary_batch_size self
    /\ Forall (fun b => length b = (n + m)%nat) batches
    /\ (exists rest, concat (take n <$> batches) ++ rest ≡ₚ primary_indices self
                     /\ (length rest < n)%nat)
    /\ Forall (fun b => Forall (.∈ secondary_indices self) (drop n b)) batches.
Proof.
  unfold TwoStreamBatchSampler_epoch, TwoStreamBatchSampler_iter, iterate_once.
  destruct (np_permutation_spec (primary_indices self) g) as (p & Hp & Hperm).
  unfold mbind at 1 2, M_bind. rewrite Hp. unfold mret at 1, M_ret.
  destruct (drain_batches (S (length (primary_indices self))) p []
              (advance (length (primary_indices self)) g))
    as (batches & rest & g' & Hdrain & Hlens & Hcat & Hrest & Hsec);
    [rewrite Hperm; lia | constructor |].
  exists batches, g'. split; [exact Hdrain |].
  pose proof (primary_parts_length batches Hlens) as Hlen.
  split; [|split; [done|split; [|done]]].
  - apply (f_equal length) in Hcat. rewrite length_app, Hlen, Hperm in Hcat.
    apply Z.div_unique with (r := Z.of_nat (length rest)); lia.
  - exists rest. by rewrite Hcat.
Qed.

End sampler.

Lemma TwoStreamBatchSampler_init_cases (pi si : list Z) (bs sbs : Z) :
  let self := {| primary_indices := pi; secondary_indices := si;
                 secondary_batch_size := sbs;
                 primary_batch_size := bs - sbs |} in
  if decide ((bs - sbs <= Z.of_nat (length pi) /\ 0 < bs - sbs)
             /\ (sbs <= Z.of_nat (length si) /\ 0 < sbs))
  then TwoStreamBatchSampler_init pi si bs sbs = Ok self
  else TwoStreamBatchSampler_init pi si bs sbs = Err AssertionError.
Proof.
  intros self. unfold TwoStreamBatchSampler_init, py_assert. fold self. simpl.
  destruct (Z.leb_spec (bs - sbs) (Z.of_nat (length pi)));
    destruct (Z.ltb_spec 0 (bs - sbs));
    destruct (Z.leb_spec sbs (Z.of_nat (length si)));
    destruct (Z.ltb_spec 0 sbs); simpl; case_decide; try reflexivity; lia.
Qed.


(** C1: for a sampler constructed from [primary_indices],
    [secondary_indices], [batch_size] and [secondary_batch_size], with
    [primary_batch_size = batch_size - secondary_batch_size], [__len__]
    returns [len(primary_indices) // primary_batch_size]; one full iteration
    ends and yields exactly that many batches, each of length
    [primary_batch_size + secondary_batch_size]; the first
    [primary_batch_size] entries of all batches together are drawn from
    [primary_indices] without replacement (they form a sub-multiset of it,
    so no index of a duplicate-free pool appears twice in the epoch); the
    remaining entries of every batch come from [secondary_indices]. *)
Theorem TwoStreamBatchSampler_epoch_spec (pi si : list Z) (bs sbs : Z)
  (self : TwoStreamBatchSampler) (g : rng) :
  TwoStreamBatchSampler_init pi si bs sbs = Ok self ->
  let pbs := bs - sbs in
  TwoStreamBatchSampler_len self = Ok (Z.of_nat (length pi) / pbs)
  /\ exists batches g',
       TwoStreamBatchSampler_epoch self g = (Ok batches, g')
       /\ Z.of_nat (length batches) = Z.of_nat (length pi) / pbs
       /\ Forall (fun b => Z.of_nat (length b) = pbs + sbs) batches
       /\ (exists rest,
             concat (take (Z.to_nat pbs) <$> batches) ++ rest ≡ₚ pi
             /\ Z.of_nat (length rest) < pbs)
       /\ concat (take (Z.to_nat pbs) <$> batches) ⊆+ pi
       /\ (NoDup pi -> NoDup (concat (take (Z.to_nat pbs) <$> batches)))
       /\ Forall (fun b => forall x, x ∈ drop (Z.to_nat pbs) b -> x ∈ si) batches.
Proof.
  intros Hinit pbs.
  pose proof (TwoStreamBatchSampler_init_cases pi si bs sbs) as Hcases.
  simpl in Hcases. case_decide as Hpre; [|congruence].
  destruct Hpre as [[Hp1 Hp2] [Hs1 Hs2]].
  rewrite Hinit in Hcases. injection Hcases as ->.
  split.
  - unfold TwoStreamBatchSampler_len. simpl.
    destruct (Z.eqb_spec (bs - sbs) 0); [lia | reflexivity].
  - destruct (epoch_batches
                {| primary_indices := pi; secondary_indices := si;
                   secondary_batch_size := sbs; primary_batch_size := bs - sbs |}
                Hp2 Hs2) with (g := g)
      as (batches & g' & Hrun & Hcount & Hlens & (rest & Hperm & Hrest) & Hsec).
    { simpl. destruct si; [simpl in Hs1; lia | done]. }
    simpl in *.
    assert (Hsub : concat (take (Z.to_nat (bs - sbs)) <$> batches) ⊆+ pi).
    { rewrite <- Hperm. apply submseteq_inserts_r. reflexivity. }
    exists batches, g'. split; [exact Hrun |].
    split; [exact Hcount |].
    split; [|split; [exists rest; split; [exact Hperm | lia] |
                     split; [exact Hsub | split]]].
    + eapply Forall_impl; [exact Hlens |]. intros b Hb. simpl in Hb.
      rewrite Hb. subst pbs. lia.
    + intros Hnd. by apply (NoDup_of_submseteq _ pi).
    + eapply Forall_impl; [exact Hsec |]. intros b Hb x Hx. simpl in Hb.
      by eapply Forall_forall in Hb.
Qed.

Lemma TwoStreamBatchSampler_epoch_spec_witness :
  TwoStreamBatchSampler_len sampler0 = Ok (Z.of_nat 5 / (4 - 2))
  /\ exists batches g',
       TwoStreamBatchSampler_epoch sampler0 g0 = (Ok batches, g')
       /\ Z.of_nat (length batches) = Z.of_nat 5 / (4 - 2)
       /\ Forall (fun b => Z.of_nat (length b) = (4 - 2) + 2) batches
       /\ (exists rest,
             concat (take (Z.to_nat (4 - 2)) <$> batches) ++ rest
               ≡ₚ [0; 1; 2; 3; 4]
             /\ Z.of_nat (length rest) < 4 - 2)
       /\ concat (take (Z.to_nat (4 - 2)) <$> batches) ⊆+ [0; 1; 2; 3; 4]
       /\ (NoDup [0; 1; 2; 3; 4]
           -> NoDup (concat (take (Z.to_nat (4 - 2)) <$> batches)))
       /\ Forall (fun b => forall x, x ∈ drop (Z.to_nat (4 - 2)) b
                                     -> x ∈ [10; 11]) batches.
Proof.
  apply (TwoStreamBatchSampler_epoch_spec [0; 1; 2; 3; 4] [10; 11] 4 2 sampler0 g0).
  reflexivity.
Defined.

(** The example of the specification: two batches, whose secondary entries
    repeat from one batch to the next. *)
Example TwoStreamBatchSampler_epoch_example :
  (TwoStreamBatchSampler_epoch sampler0 g0).1
    = Ok [[3; 2; 10; 11]; [4; 0; 10; 11]].
Proof. reflexivity. Qed.

(** C7: construction raises [AssertionError] exactly when
    [len(primary_indices) >= primary_batch_size > 0] and
    [len(secondary_indices) >= secondary_batch_size > 0] do not both hold,
    with [primary_batch_size = batch_size - secondary_batch_size]; when
    both hold it returns the sampler, whose [__len__] and whose iteration
    then raise nothing. *)
Theorem TwoStreamBatchSampler_init_spec (pi si : list Z) (bs sbs : Z) :
  let pbs := bs - sbs in
  let pre := (pbs <= Z.of_nat (length pi) /\ 0 < pbs)
             /\ (sbs <= Z.of_nat (length si) /\ 0 < sbs) in
  (TwoStreamBatchSampler_init pi si bs sbs = Err AssertionError <-> ~ pre)
  /\ (pre ->
      exists self,
        TwoStreamBatchSampler_init pi si bs sbs = Ok self
        /\ primary_indices self = pi
        /\ secondary_indices self = si
        /\ primary_batch_size self = pbs
        /\ secondary_batch_size self = sbs
        /\ (exists k, TwoStreamBatchSampler_len self = Ok k)
        /\ forall g, exists batches g',
             TwoStreamBatchSampler_epoch self g = (Ok batches, g')).
Proof.
  intros pbs pre.
  pose proof (TwoStreamBatchSampler_init_cases pi si bs sbs) as Hcases.
  simpl in Hcases. fold pbs in Hcases.
  case_decide as Hpre; fold pre in Hpre.
  - split; [split; [congruence | tauto] |]. intros _.
    eexists. split; [exact Hcases |]. simpl. repeat split.
    + unfold TwoStreamBatchSampler_len. simpl.
      destruct (Z.eqb_spec pbs 0); [unfold pre in Hpre; lia | eauto].
    + intros g. destruct Hpre as [[Hp1 Hp2] [Hs1 Hs2]].
      destruct (epoch_batches
                  {| primary_indices := pi; secondary_indices := si;
                     secondary_batch_size := sbs; primary_batch_size := pbs |}
                  Hp2 Hs2) with (g := g) as (batches & g' & Hrun & _).
      { simpl. destruct si; [simpl in Hs1; lia | done]. }
      eauto.
  - split; [tauto |]. tauto.
Qed.

Lemma TwoStreamBatchSampler_init_spec_witness :
  exists self,
    TwoStreamBatchSampler_init [0; 1; 2; 3; 4] [10; 11] 4 2 = Ok self
    /\ primary_indices self = [0; 1; 2; 3; 4]
    /\ secondary_indices self = [10; 11]
    /\ primary_batch_size self = 4 - 2
    /\ secondary_batch_size self = 2
    /\ (exists k, TwoStreamBatchSampler_len self = Ok k)
    /\ forall g, exists batches g',
         TwoStreamBatchSampler_epoch self g = (Ok batches, g').
Proof.
  apply (proj2 (TwoStreamBatchSampler_init_spec [0; 1; 2; 3; 4] [10; 11] 4 2)).
  simpl. lia.
Defined.

(** ** Indexing tuples and shapes *)

Lemma py_index_lookup {A : Type} (l : list A) (i : Z) (x : A) :
  0 <= i -> l !! Z.to_nat i = Some x -> py_index l i = Ok x.
Proof.
  intros Hi Hx. pose proof (lookup_lt_Some _ _ _ Hx) as Hlt.
  unfold py_index.
  destruct (Z.ltb_spec i (- Z.of_nat (length l))); [lia |].
  destruct (Z.leb_spec (Z.of_nat (length l)) i); [lia |].
  destruct (Z.ltb_spec i 0); [lia |]. simpl. by rewrite Hx.
Qed.

Lemma py_index_0 {A : Type} (x : A) (l : list A) : py_index (x :: l) 0 = Ok x.
Proof. by apply py_index_lookup. Qed.

Lemma py_index_1 {A : Type} (x y : A) (l : list A) :
  py_index (x :: y :: l) 1 = Ok y.
Proof. by apply py_index_lookup. Qed.

Lemma py_index_2 {A : Type} (x y z : A) (l : list A) :
  py_index (x :: y :: z :: l) 2 = Ok z.
Proof. by apply py_index_lookup. Qed.

Lemma get_key_Some (s : sample) (key : string) (a : ndarray) :
  s !! key = Some a -> get_key s key = Ok a.
Proof. unfold get_key. by intros ->. Qed.

(** ** [CenterCrop] *)

(** Two pad pairs fit an array of two axes and no other. *)
Lemma np_pad_two_pairs (a : ndarray) (pw ph : Z) :
  0 <= pw -> 0 <= ph ->
  np_pad a [(pw, pw); (ph, ph)] =
    if decide (ndim a = 2%nat)
    then Ok {| shape := pad_shape (shape a)
                         [(Z.to_nat pw, Z.to_nat pw); (Z.to_nat ph, Z.to_nat ph)];
               item := fun idx =>
                 match pad_source (shape a)
                         [(Z.to_nat pw, Z.to_nat pw); (Z.to_nat ph, Z.to_nat ph)]
                         idx with
                 | Some src => item a src
                 | None => 0%Q
                 end |}
    else Err ValueError.
Proof.
  intros Hpw Hph. unfold np_pad, as_pairs. simpl.
  destruct (Z.ltb_spec pw 0); [lia |].
  destruct (Z.ltb_spec ph 0); [lia |]. simpl.
  repeat case_decide; try congruence; reflexivity.
Qed.

(** Whenever the padding branch of [CenterCrop] is taken the call raises:
    either [np.pad] refuses the two pad pairs, or the padded image has two
    axes and cannot be unpacked into [(w, h, d)]. *)
Lemma CenterCrop_padding_raises (output_size : list Z) (s : sample)
  (image label : ndarray) (s0 s1 : nat) (rest : list nat) (o0 o1 : Z)
  (orest : list Z) :
  s !! "image" = Some image ->
  s !! "label" = Some label ->
  shape label = s0 :: s1 :: rest ->
  output_size = o0 :: o1 :: orest ->
  Z.of_nat s0 <= o0 \/ Z.of_nat s1 <= o1 ->
  CenterCrop_call output_size s = Err ValueError.
Proof.
  intros Himage Hlabel Hshape -> Hsmall.
  unfold CenterCrop_call.
  rewrite (get_key_Some _ _ _ Himage), (get_key_Some _ _ _ Hlabel).
  unfold_M. unfold shape_at. rewrite Hshape, !py_index_0, !py_index_1.
  unfold_M.
  assert (Hcond : (if Z.of_nat s0 <=? o0 then Ok true
                   else Ok (Z.of_nat s1 <=? o1)) = Ok true).
  { destruct (Z.leb_spec (Z.of_nat s0) o0); [done |].
    destruct (Z.leb_spec (Z.of_nat s1) o1); [done | lia]. }
  rewrite Hcond.
  rewrite !np_pad_two_pairs by lia.
  case_decide as Hnd; [|reflexivity].
  case_decide; [|reflexivity].
  unfold ndim in Hnd. simpl.
  destruct (shape image) as [|w [|h [|d sh]]]; try discriminate. reflexivity.
Qed.

Lemma py_index_short {A : Type} (l : list A) (i : Z) :
  Z.of_nat (length l) <= i -> py_index l i = Err IndexError.
Proof.
  intros H. unfold py_index.
  destruct (Z.leb_spec (Z.of_nat (length l)) i); [|lia].
  by rewrite orb_true_r.
Qed.

(** [CenterCrop] returns only from the branch without padding. *)
Lemma CenterCrop_returns_inv (output_size : list Z) (s : sample)
  (image label : ndarray) (r : sample) :
  s !! "image" = Some image ->
  s !! "label" = Some label ->
  CenterCrop_call output_size s = Ok r ->
  exists s0 s1 rest o0 o1 orest,
    shape label = s0 :: s1 :: rest
    /\ output_size = o0 :: o1 :: orest
    /\ o0 < Z.of_nat s0 /\ o1 < Z.of_nat s1.
Proof.
  intros Himage Hlabel Hcall.
  destruct (shape label) as [|s0 [|s1 rest]] eqn:Hshape;
    destruct output_size as [|o0 [|o1 orest]];
    try (exfalso; revert Hcall; unfold CenterCrop_call;
         rewrite (get_key_Some _ _ _ Himage), (get_key_Some _ _ _ Hlabel);
         unfold_M; unfold shape_at; rewrite Hshape;
         rewrite ?py_index_0, ?py_index_1;
         rewrite ?(py_index_short []) by (simpl; lia);
         rewrite ?(py_index_short [_]) by (simpl; lia);
         unfold_M; try discriminate;
         destruct (_ <=? _); rewrite ?(py_index_short [_]) by (simpl; lia);
         discriminate).
  destruct (decide (Z.of_nat s0 <= o0 \/ Z.of_nat s1 <= o1)) as [Hsmall|Hbig].
  - rewrite (CenterCrop_padding_raises _ s image label s0 s1 rest o0 o1 orest)
      in Hcall by done.
    discriminate.
  - exists s0, s1, rest, o0, o1, orest. repeat split; lia.
Qed.

(** C10: for a sample whose image has three axes, [np.pad] refuses the two
    pad pairs of the padding branch, so [CenterCrop] raises whenever one of
    the first two dimensions of the label is at most the corresponding entry
    of [output_size], and it returns only when [label.shape[0] >
    output_size[0]] and [label.shape[1] > output_size[1]]. *)
Theorem CenterCrop_three_axes_padding_raises (output_size : list Z) (s : sample)
  (image label : ndarray) :
  s !! "image" = Some image ->
  s !! "label" = Some label ->
  ndim image = 3%nat ->
  (forall pw ph, 0 <= pw -> 0 <= ph ->
     np_pad image [(pw, pw); (ph, ph)] = Err ValueError)
  /\ (forall s0 s1 rest o0 o1 orest,
        shape label = s0 :: s1 :: rest ->
        output_size = o0 :: o1 :: orest ->
        Z.of_nat s0 <= o0 \/ Z.of_nat s1 <= o1 ->
        CenterCrop_call output_size s = Err ValueError)
  /\ (forall r, CenterCrop_call output_size s = Ok r ->
        exists s0 s1 rest o0 o1 orest,
          shape label = s0 :: s1 :: rest
          /\ output_size = o0 :: o1 :: orest
          /\ o0 < Z.of_nat s0 /\ o1 < Z.of_nat s1).
Proof.
  intros Himage Hlabel Hnd. split; [|split].
  - intros pw ph Hpw Hph. rewrite np_pad_two_pairs by done.
    case_decide; [congruence | reflexivity].
  - intros. by eapply CenterCrop_padding_raises.
  - intros r Hr. by eapply CenterCrop_returns_inv.
Qed.

Lemma CenterCrop_three_axes_padding_raises_witness :
  sample_small !! "image" = Some (arange [4; 4; 1]%nat)
  /\ sample_small !! "label" = Some (arange [4; 4; 1]%nat)
  /\ ndim (arange [4; 4; 1]%nat) = 3%nat
  /\ CenterCrop_call [8; 8] sample_small = Err ValueError.
Proof.
  split; [reflexivity |]. split; [reflexivity |]. split; [reflexivity |].
  apply (proj1 (proj2 (CenterCrop_three_axes_padding_raises [8; 8] sample_small
                         (arange [4; 4; 1]%nat) (arange [4; 4; 1]%nat)
                         eq_refl eq_refl eq_refl))
           4%nat 4%nat [1%nat] 8 8 []);
    [reflexivity | reflexivity | left; simpl; lia].
Defined.

(** C2: on a 4x4x1 image and label with [output_size = (8, 8)] the padding
    branch is taken and [CenterCrop] raises [ValueError]; it does not return
    a sample of spatial shape [(8, 8)]. *)
Theorem CenterCrop_small_sample_raises :
  CenterCrop_call [8; 8] sample_small = Err ValueError.
Proof. vm_compute. reflexivity. Qed.

Lemma py_round_half_bounds (m : Z) :
  0 < m -> 0 <= py_round_half m <= m.
Proof.
  intros Hm. unfold py_round_half.
  pose proof (Z.div_mod m 2 ltac:(lia)) as Hdm.
  pose proof (Z.mod_pos_bound m 2 ltac:(lia)) as Hb.
  destruct (Z.even m) eqn:Hev; [lia |].
  rewrite Zeven_mod in Hev. apply Z.eqb_neq in Hev.
  destruct (Z.even (m / 2)); lia.
Qed.

(** A slice that lies inside the axis. *)
Lemma slice_indices_inside (lo e : Z) (len : nat) :
  0 <= lo -> 0 <= e -> lo + e <= Z.of_nat len ->
  slice_indices (Some lo) (Some (lo + e)) len = (Z.to_nat lo, Z.to_nat e).
Proof.
  intros Hlo He Hlen. unfold slice_indices, slice_bound.
  destruct (Z.ltb_spec lo 0); [lia |].
  destruct (Z.ltb_spec (lo + e) 0); [lia |].
  f_equal; f_equal; lia.
Qed.

Lemma slice_indices_full (len : nat) : slice_indices None None len = (O, len).
Proof.
  unfold slice_indices, slice_bound. f_equal; lia.
Qed.

(** Without padding, on an image of three axes and a label with the same
    two leading dimensions, [CenterCrop] returns both arrays cut to
    [output_size] on their first two axes, around the centre. *)
Lemma CenterCrop_without_padding (s : sample) (image label : ndarray)
  (w h d : nat) (rest : list nat) (o0 o1 : Z) :
  s !! "image" = Some image ->
  s !! "label" = Some label ->
  shape image = [w; h; d] ->
  shape label = w :: h :: rest ->
  0 <= o0 < Z.of_nat w ->
  0 <= o1 < Z.of_nat h ->
  exists image' label',
    CenterCrop_call [o0; o1] s
      = Ok ({[ "image" := image'; "label" := label' ]} : sample)
    /\ shape image' = [Z.to_nat o0; Z.to_nat o1; d]
    /\ shape label' = Z.to_nat o0 :: Z.to_nat o1 :: rest
    /\ let w1 := Z.to_nat (py_round_half (Z.of_nat w - o0)) in
       let h1 := Z.to_nat (py_round_half (Z.of_nat h - o1)) in
       (w1 + Z.to_nat o0 <= w)%nat /\ (h1 + Z.to_nat o1 <= h)%nat
       /\ (forall i j r, item image' (i :: j :: r)
                         = item image ((w1 + i)%nat :: (h1 + j)%nat :: r))
       /\ (forall i j r, item label' (i :: j :: r)
                         = item label ((w1 + i)%nat :: (h1 + j)%nat :: r)).
Proof.
  intros Himage Hlabel Hsi Hsl Ho0 Ho1.
  pose proof (py_round_half_bounds (Z.of_nat w - o0) ltac:(lia)) as Hw1.
  pose proof (py_round_half_bounds (Z.of_nat h - o1) ltac:(lia)) as Hh1.
  unfold CenterCrop_call.
  rewrite (get_key_Some _ _ _ Himage), (get_key_Some _ _ _ Hlabel).
  unfold_M. unfold shape_at. rewrite Hsl, !py_index_0, !py_index_1. unfold_M.
  destruct (Z.leb_spec (Z.of_nat w) o0); [lia |].
  destruct (Z.leb_spec (Z.of_nat h) o1); [lia |].
  rewrite Hsi. cbn [unpack3].
  unfold np_getitem. rewrite Hsi, Hsl. cbn [getitem_view].
  rewrite !slice_indices_inside by lia. unfold_M. cbn [fst snd].
  eexists _, _. split; [reflexivity |]. cbn [shape item].
  repeat split; try lia.
Qed.

(** ** Random draws *)

Lemma np_randint_cases (low high : Z) (g : rng) :
  if decide (low < high) then
    exists v, np_randint low high g = (Ok v, advance 1 g) /\ low <= v < high
  else np_randint low high g = (Err ValueError, g).
Proof.
  unfold np_randint. case_decide.
  - destruct (Z.leb_spec high low); [lia |].
    eexists. split; [reflexivity |].
    pose proof (Z.mod_pos_bound (ints g (cursor g)) (high - low)). lia.
  - destruct (Z.leb_spec high low); [reflexivity | lia].
Qed.

(** Every value of the range is drawn from some generator state. *)
Lemma np_randint_onto (low high v : Z) :
  low <= v < high ->
  exists g, (np_randint low high g).1 = Ok v.
Proof.
  intros Hv.
  exists {| ints := fun _ => v - low; normals := fun _ => float_of_Z 0; cursor := 0 |}.
  unfold np_randint. destruct (Z.leb_spec high low); [lia |]. simpl.
  rewrite Z.mod_small by lia. f_equal. lia.
Qed.

(** ** [RandomCrop] *)

Lemma crop12_spec (a : ndarray) (d w h : nat) (rest : list nat)
  (w1 h1 e1 e2 : Z) :
  shape a = d :: w :: h :: rest ->
  exists a',
    crop12 a w1 h1 e1 e2 = Ok a'
    /\ (0 <= w1 -> 0 <= e1 -> w1 + e1 <= Z.of_nat w ->
        0 <= h1 -> 0 <= e2 -> h1 + e2 <= Z.of_nat h ->
        shape a' = d :: Z.to_nat e1 :: Z.to_nat e2 :: rest
        /\ forall c i j r,
             item a' (c :: i :: j :: r)
             = item a (c :: (Z.to_nat w1 + i)%nat :: (Z.to_nat h1 + j)%nat :: r)).
Proof.
  intros Hshape. unfold crop12, np_getitem. rewrite Hshape. cbn [getitem_view].
  rewrite slice_indices_full.
  destruct (slice_indices (Some w1) (Some (w1 + e1)) w) as [lo1 n1] eqn:H1.
  destruct (slice_indices (Some h1) (Some (h1 + e2)) h) as [lo2 n2] eqn:H2.
  unfold_M. cbn [fst snd]. eexists. split; [reflexivity |].
  intros. rewrite slice_indices_inside in H1, H2 by lia.
  injection H1 as <- <-. injection H2 as <- <-. cbn [shape item]. done.
Qed.

(** What [RandomCrop] returns once the two offsets are drawn. *)
Lemma RandomCrop_call_at (output_size : list Z) (with_sdf : bool)
  (s : sample) (image label : ndarray) (image' label' : ndarray)
  (sdf' : option ndarray) (d w h : nat) (o0 o1 o2 : Z) (orest : list Z)
  (g g1 g2 : rng) (w1 h1 : Z) :
  s !! "image" = Some image ->
  s !! "label" = Some label ->
  (with_sdf = true -> is_Some (s !! "sdf")) ->
  output_size = o0 :: o1 :: o2 :: orest ->
  RandomCrop_pad output_size image label
    (if with_sdf then s !! "sdf" else None) = Ok (image', label', sdf') ->
  shape image' = [d; w; h] ->
  ndim label' = 3%nat ->
  (forall a, sdf' = Some a -> ndim a = 3%nat) ->
  np_randint 0 (Z.of_nat w - o1) g = (Ok w1, g1) ->
  np_randint 0 (Z.of_nat h - o2) g1 = (Ok h1, g2) ->
  exists image'' label'',
    crop12 image' w1 h1 o1 o2 = Ok image''
    /\ crop12 label' w1 h1 o1 o2 = Ok label''
    /\ match sdf' with
       | Some a =>
           exists sdf'',
             crop12 a w1 h1 o1 o2 = Ok sdf''
             /\ RandomCrop_call output_size with_sdf s g
                = (Ok {[ "image" := image''; "label" := label'';
                         "sdf" := sdf'' ]}, g2)
       | None =>
           RandomCrop_call output_size with_sdf s g
           = (Ok {[ "image" := image''; "label" := label'' ]}, g2)
       end.
Proof.
  intros Himage Hlabel Hsdf -> Hpad Hshape Hlab Hsdf' Hw1 Hh1. unfold ndim in *.
  assert (Hcall : RandomCrop_call (o0 :: o1 :: o2 :: orest) with_sdf s g
                  = RandomCrop_crop (o0 :: o1 :: o2 :: orest) image' label' sdf' g).
  { unfold RandomCrop_call.
    rewrite (get_key_Some _ _ _ Himage), (get_key_Some _ _ _ Hlabel).
    destruct with_sdf.
    - destruct (Hsdf eq_refl) as [a Ha]. rewrite Ha in Hpad.
      rewrite (get_key_Some _ _ _ Ha). unfold_M. simpl. by rewrite Hpad.
    - unfold_M. simpl. by rewrite Hpad. }
  rewrite Hcall. clear Hcall.
  assert (Hrun : RandomCrop_crop (o0 :: o1 :: o2 :: orest) image' label' sdf' g =
                 (w1 ← np_randint 0 (Z.of_nat w - o1);
                  h1 ← np_randint 0 (Z.of_nat h - o2);
                  label ← lift (crop12 label' w1 h1 o1 o2);
                  image ← lift (crop12 image' w1 h1 o1 o2);
                  match sdf' with
                  | Some a =>
                      sdf ← lift (crop12 a w1 h1 o1 o2);
                      mret ({[ "image" := image; "label" := label;
                               "sdf" := sdf ]} : sample)
                  | None =>
                      mret ({[ "image" := image; "label" := label ]} : sample)
                  end) g).
  { unfold RandomCrop_crop. rewrite Hshape. cbn [unpack_dwh].
    rewrite py_index_1, py_index_2. reflexivity. }
  rewrite Hrun. clear Hrun.
  destruct (shape label') as [|ld [|lw [|lh [|? ?]]]] eqn:Hls; try discriminate.
  destruct (crop12_spec image' d w h [] w1 h1 o1 o2 Hshape) as (image'' & Hci & _).
  destruct (crop12_spec label' ld lw lh [] w1 h1 o1 o2 Hls) as (label'' & Hcl & _).
  exists image'', label''. split; [exact Hci |]. split; [exact Hcl |].
  destruct sdf' as [a|].
  - pose proof (Hsdf' a eq_refl) as Ha.
    destruct (shape a) as [|ad [|aw [|ah [|? ?]]]] eqn:Has; try discriminate.
    destruct (crop12_spec a ad aw ah [] w1 h1 o1 o2 Has) as (sdf'' & Hcs & _).
    exists sdf''. split; [exact Hcs |].
    unfold mbind at 1, M_bind. rewrite Hw1.
    unfold mbind at 1, M_bind. rewrite Hh1.
    unfold_M. by rewrite Hcl, Hci, Hcs.
  - unfold mbind at 1, M_bind. rewrite Hw1.
    unfold mbind at 1, M_bind. rewrite Hh1.
    unfold_M. by rewrite Hcl, Hci.
Qed.

(** C3: on a sample whose arrays have three axes after the padding step,
    with [(d, w, h)] the shape of the padded image, [RandomCrop] raises
    [ValueError] whenever [w - output_size[1] <= 0] or
    [h - output_size[2] <= 0]; otherwise [w1] is the number that
    [randint(0, w - output_size[1])] draws and [h1] the number that
    [randint(0, h - output_size[2])] draws next, they lie in
    [[0, w - output_size[1])] and [[0, h - output_size[2])], and the call
    returns the slices [[:, w1:w1 + output_size[1], h1:h1 + output_size[2]]]
    of image, label and (when [with_sdf]) sdf, all at these offsets: the
    whole of axis 0 and extents [output_size[1]] and [output_size[2]] on
    axes 1 and 2.  Every pair of offsets of the two ranges is drawn, and
    then used, from some state of the generator. *)
Theorem RandomCrop_crop_spec (output_size : list Z) (with_sdf : bool)
  (s : sample) (image label : ndarray) (image' label' : ndarray)
  (sdf' : option ndarray) (d w h : nat) (o0 o1 o2 : Z) (orest : list Z)
  (g : rng) :
  s !! "image" = Some image ->
  s !! "label" = Some label ->
  (with_sdf = true -> is_Some (s !! "sdf")) ->
  output_size = o0 :: o1 :: o2 :: orest ->
  RandomCrop_pad output_size image label
    (if with_sdf then s !! "sdf" else None) = Ok (image', label', sdf') ->
  shape image' = [d; w; h] ->
  ndim label' = 3%nat ->
  (forall a, sdf' = Some a -> ndim a = 3%nat) ->
  (Z.of_nat w - o1 <= 0 \/ Z.of_nat h - o2 <= 0 ->
   (RandomCrop_call output_size with_sdf s g).1 = Err ValueError)
  /\ (0 < Z.of_nat w - o1 -> 0 < Z.of_nat h - o2 ->
      exists w1 h1 image'' label'',
        np_randint 0 (Z.of_nat w - o1) g = (Ok w1, advance 1 g)
        /\ np_randint 0 (Z.of_nat h - o2) (advance 1 g)
           = (Ok h1, advance 1 (advance 1 g))
        /\ 0 <= w1 < Z.of_nat w - o1
        /\ 0 <= h1 < Z.of_nat h - o2
        /\ crop12 image' w1 h1 o1 o2 = Ok image''
        /\ crop12 label' w1 h1 o1 o2 = Ok label''
        /\ match sdf' with
           | Some a =>
               exists sdf'',
                 crop12 a w1 h1 o1 o2 = Ok sdf''
                 /\ RandomCrop_call output_size with_sdf s g
                    = (Ok {[ "image" := image''; "label" := label'';
                             "sdf" := sdf'' ]}, advance 1 (advance 1 g))
           | None =>
               RandomCrop_call output_size with_sdf s g
               = (Ok {[ "image" := image''; "label" := label'' ]},
                  advance 1 (advance 1 g))
           end
        /\ (0 <= o1 -> 0 <= o2 ->
            forall a a'' d',
              a = image' \/ a = label' \/ sdf' = Some a ->
              shape a = [d'; w; h] ->
              crop12 a w1 h1 o1 o2 = Ok a'' ->
              shape a'' = [d'; Z.to_nat o1; Z.to_nat o2]
              /\ forall c i j,
                   item a'' [c; i; j]
                   = item a [c; (Z.to_nat w1 + i)%nat; (Z.to_nat h1 + j)%nat]))
  /\ (forall v1 v2,
        0 <= v1 < Z.of_nat w - o1 -> 0 <= v2 < Z.of_nat h - o2 ->
        exists g' image'' label'',
          np_randint 0 (Z.of_nat w - o1) g' = (Ok v1, advance 1 g')
          /\ np_randint 0 (Z.of_nat h - o2) (advance 1 g')
             = (Ok v2, advance 1 (advance 1 g'))
          /\ crop12 image' v1 v2 o1 o2 = Ok image''
          /\ crop12 label' v1 v2 o1 o2 = Ok label''
          /\ match sdf' with
             | Some a =>
                 exists sdf'',
                   crop12 a v1 v2 o1 o2 = Ok sdf''
                   /\ RandomCrop_call output_size with_sdf s g'
                      = (Ok {[ "image" := image''; "label" := label'';
                               "sdf" := sdf'' ]}, advance 1 (advance 1 g'))
             | None =>
                 RandomCrop_call output_size with_sdf s g'
                 = (Ok {[ "image" := image''; "label" := label'' ]},
                    advance 1 (advance 1 g'))
             end).
Proof.
  intros Himage Hlabel Hsdf Hos Hpad Hshape Hlab Hsdf'.
  pose proof (np_randint_cases 0 (Z.of_nat w - o1) g) as Hw1.
  split; [|split].
  - intros Hfail.
    assert (Hcall : RandomCrop_call output_size with_sdf s g
                    = RandomCrop_crop output_size image' label' sdf' g).
    { unfold RandomCrop_call.
      rewrite (get_key_Some _ _ _ Himage), (get_key_Some _ _ _ Hlabel).
      destruct with_sdf.
      - destruct (Hsdf eq_refl) as [a Ha]. rewrite Ha in Hpad.
        rewrite (get_key_Some _ _ _ Ha). unfold_M. simpl. by rewrite Hpad.
      - unfold_M. simpl. by rewrite Hpad. }
    rewrite Hcall, Hos. unfold RandomCrop_crop. rewrite Hshape.
    cbn [unpack_dwh]. rewrite py_index_1, py_index_2.
    unfold mbind at 1 2 3, M_bind, lift at 1 2.
    case_decide as Hw.
    + destruct Hw1 as (w1 & -> & _). unfold mbind at 1 2, M_bind, lift at 1.
      pose proof (np_randint_cases 0 (Z.of_nat h - o2) (advance 1 g)) as Hh1.
      case_decide; [lia |]. by rewrite Hh1.
    + by rewrite Hw1.
  - intros Hw Hh. case_decide; [|lia].
    destruct Hw1 as (w1 & Hw1 & Hw1r).
    pose proof (np_randint_cases 0 (Z.of_nat h - o2) (advance 1 g)) as Hh1.
    case_decide; [|lia]. destruct Hh1 as (h1 & Hh1 & Hh1r).
    destruct (RandomCrop_call_at output_size with_sdf s image label image'
                label' sdf' d w h o0 o1 o2 orest g _ _ w1 h1
                Himage Hlabel Hsdf Hos Hpad Hshape Hlab Hsdf' Hw1 Hh1)
      as (image'' & label'' & Hci & Hcl & Hret).
    exists w1, h1, image'', label''.
    split; [exact Hw1 |]. split; [exact Hh1 |].
    split; [lia |]. split; [lia |]. split; [done |]. split; [done |].
    split; [exact Hret |].
    intros Ho1 Ho2 a a'' d' _ Ha Hca.
    destruct (crop12_spec a d' w h [] w1 h1 o1 o2 Ha) as (b & Hb & Hspec).
    rewrite Hb in Hca. injection Hca as <-.
    destruct Hspec as [Hs Hitem]; [lia..|]. split; [done |].
    intros c i j. apply Hitem.
  - intros v1 v2 Hv1 Hv2.
    set (g' := {| ints := fun k => match k with O => v1 | S _ => v2 end;
                  normals := fun _ => float_of_Z 0; cursor := O |}).
    assert (Hd1 : np_randint 0 (Z.of_nat w - o1) g' = (Ok v1, advance 1 g')).
    { unfold np_randint. destruct (Z.leb_spec (Z.of_nat w - o1) 0); [lia |].
      cbn [ints cursor g']. rewrite Z.sub_0_r, Z.mod_small by lia. reflexivity. }
    assert (Hd2 : np_randint 0 (Z.of_nat h - o2) (advance 1 g')
                  = (Ok v2, advance 1 (advance 1 g'))).
    { unfold np_randint. destruct (Z.leb_spec (Z.of_nat h - o2) 0); [lia |].
      cbn [ints cursor g' advance Nat.add].
      rewrite Z.sub_0_r, Z.mod_small by lia. reflexivity. }
    destruct (RandomCrop_call_at output_size with_sdf s image label image'
                label' sdf' d w h o0 o1 o2 orest g' _ _ v1 v2
                Himage Hlabel Hsdf Hos Hpad Hshape Hlab Hsdf' Hd1 Hd2)
      as (image'' & label'' & Hci & Hcl & Hret).
    by exists g', image'', label''.
Qed.

Lemma RandomCrop_crop_spec_witness :
  exists w1 h1 image'' label'',
    np_randint 0 (Z.of_nat 10 - 4) g0 = (Ok w1, advance 1 g0)
    /\ 0 <= w1 < Z.of_nat 10 - 4
    /\ 0 <= h1 < Z.of_nat 9 - 4
    /\ (RandomCrop_call [1; 4; 4] false sample_chw g0).1
       = Ok {[ "image" := image''; "label" := label'' ]}
    /\ shape image'' = [1; 4; 4]%nat.
Proof.
  assert (Hpad : exists image' label',
             RandomCrop_pad [1; 4; 4] (arange [1; 10; 9]%nat)
               (arange [1; 10; 9]%nat) None = Ok (image', label', None)
             /\ shape image' = [1; 10; 9]%nat /\ ndim label' = 3%nat).
  { eexists _, _. split; [reflexivity |]. split; reflexivity. }
  destruct Hpad as (image' & label' & Hpad & Hshape & Hnd).
  destruct (proj1 (proj2 (RandomCrop_crop_spec [1; 4; 4] false sample_chw
                     (arange [1; 10; 9]%nat) (arange [1; 10; 9]%nat)
                     image' label' None 1 10 9 1 4 4 [] g0
                     eq_refl eq_refl ltac:(discriminate) eq_refl Hpad Hshape Hnd
                     ltac:(discriminate)))
             ltac:(simpl; lia) ltac:(simpl; lia))
    as (w1 & h1 & image'' & label'' & Hd1 & _ & Hw1 & Hh1 & Hci & _ & Hcall
        & Hshapes).
  exists w1, h1, image'', label''.
  split; [exact Hd1 |]. split; [exact Hw1 |]. split; [exact Hh1 |].
  split; [by rewrite Hcall |].
  apply (Hshapes ltac:(lia) ltac:(lia) image' image'' 1%nat
           (or_introl eq_refl) Hshape Hci).
Defined.

(** An image smaller than its label: no padding, and the draw of the
    offset raises. *)
Example RandomCrop_mismatch_raises :
  (RandomCrop_call [0; 4; 4] false sample_mismatch g0).1 = Err ValueError.
Proof. vm_compute. reflexivity. Qed.

(** ** [RandomRotFlip] *)

Lemma np_rot90_cases (a : ndarray) :
  (exists a', np_rot90 a = Ok a' /\ ndim a' = ndim a /\ (3 <= ndim a)%nat)
  \/ (np_rot90 a = Err ValueError /\ (ndim a < 3)%nat).
Proof.
  unfold np_rot90, ndim.
  destruct (shape a) as [|d [|n1 [|n2 rest]]]; simpl;
    [right; split; [done | lia].. |].
  left. eexists. split; [reflexivity |]. simpl. lia.
Qed.

Lemma rot90_times_cases (k : nat) (a : ndarray) :
  (exists a', rot90_times k a = Ok a' /\ ndim a' = ndim a
              /\ (k <> O -> (3 <= ndim a)%nat))
  \/ (rot90_times k a = Err ValueError /\ k <> O).
Proof.
  revert a. induction k as [|k IH]; intros a; simpl.
  - left. by exists a.
  - destruct (np_rot90_cases a) as [(a1 & -> & Hnd & H3)|[-> _]];
      [|by right].
    unfold_M. destruct (IH a1) as [(a' & -> & Hnd' & _)|[-> _]].
    + left. exists a'. repeat split; [congruence | done].
    + by right.
Qed.

Lemma rot90_times_total (k : nat) (a : ndarray) :
  (3 <= ndim a)%nat ->
  exists a', rot90_times k a = Ok a' /\ ndim a' = ndim a.
Proof.
  intros H3. destruct (rot90_times_cases k a) as [(a' & Ha & Hnd & _)|[Ha Hk]];
    [eauto |].
  exfalso. revert a H3 Ha. clear Hk. induction k as [|k IH]; intros a H3;
    [discriminate |].
  simpl. destruct (np_rot90_cases a) as [(a1 & -> & Hnd & _)|[_ ?]]; [|lia].
  unfold_M. apply IH. lia.
Qed.

(** The interleaved loop of the source turns each array on its own. *)
Lemma rot_loop_separate (k : nat) (image label : ndarray) :
  rot_loop k image label =
    match rot90_times k image, rot90_times k label with
    | Ok image', Ok label' => Ok (image', label')
    | _, _ => Err ValueError
    end.
Proof.
  revert image label. induction k as [|k IH]; intros image label; simpl;
    [reflexivity |].
  destruct (np_rot90_cases image) as [(i1 & -> & _)|[-> _]]; [|reflexivity].
  destruct (np_rot90_cases label) as [(l1 & -> & _)|[-> _]].
  - unfold_M. apply IH.
  - unfold_M. by destruct (rot90_times k i1).
Qed.

Lemma np_flip_Ok (a : ndarray) (axis : Z) :
  0 <= axis < Z.of_nat (ndim a) ->
  np_flip a axis =
    Ok {| shape := shape a;
          item := fun idx =>
            item a (flip_index (shape a) (wrap_index (ndim a) axis) idx) |}.
Proof.
  intros H. unfold np_flip, index_ok.
  destruct (Z.leb_spec (- Z.of_nat (ndim a)) axis); [|lia].
  destruct (Z.ltb_spec axis (Z.of_nat (ndim a))); [|lia]. reflexivity.
Qed.

(** Two arrays of one shape stay aligned under [rot_flip]: the results have
    one shape, and every position of the results shows the elements that
    the two inputs hold at one common position. *)
Lemma np_rot90_aligned (a b a' b' : ndarray) :
  shape a = shape b -> np_rot90 a = Ok a' -> np_rot90 b = Ok b' ->
  shape a' = shape b'
  /\ exists f : list nat -> list nat,
       forall idx, item a' idx = item a (f idx) /\ item b' idx = item b (f idx).
Proof.
  unfold np_rot90. intros Hs. rewrite <- Hs.
  destruct (shape a) as [|d [|n1 [|n2 rest]]]; try discriminate.
  intros [= <-] [= <-]. split; [reflexivity |].
  exists (fun idx => match idx with
                     | c :: i :: j :: r => c :: j :: (n2 - 1 - i)%nat :: r
                     | _ => idx
                     end).
  intros idx. simpl. by destruct idx as [|c [|i [|j r]]].
Qed.

Lemma rot90_times_aligned (k : nat) (a b a' b' : ndarray) :
  shape a = shape b -> rot90_times k a = Ok a' -> rot90_times k b = Ok b' ->
  shape a' = shape b'
  /\ exists f : list nat -> list nat,
       forall idx, item a' idx = item a (f idx) /\ item b' idx = item b (f idx).
Proof.
  revert a b. induction k as [|k IH]; intros a b Hs; simpl.
  - intros [= <-] [= <-]. split; [done |]. by exists (fun idx => idx).
  - unfold_M.
    destruct (np_rot90 a) as [a1|] eqn:Ha; [|discriminate].
    destruct (np_rot90 b) as [b1|] eqn:Hb; [|discriminate].
    destruct (np_rot90_aligned a b a1 b1 Hs Ha Hb) as (Hs1 & f1 & Hf1).
    intros Ha' Hb'.
    destruct (IH a1 b1 Hs1 Ha' Hb') as (Hs' & f & Hf).
    split; [done |]. exists (fun idx => f1 (f idx)).
    intros idx. destruct (Hf idx) as [-> ->]. apply Hf1.
Qed.

Lemma rot_flip_aligned (k : nat) (axis : Z) (a b a' b' : ndarray) :
  shape a = shape b -> rot_flip k axis a = Ok a' -> rot_flip k axis b = Ok b' ->
  shape a' = shape b'
  /\ exists f : list nat -> list nat,
       forall idx, item a' idx = item a (f idx) /\ item b' idx = item b (f idx).
Proof.
  unfold rot_flip. unfold_M. intros Hs.
  destruct (rot90_times k a) as [a1|] eqn:Ha; [|discriminate].
  destruct (rot90_times k b) as [b1|] eqn:Hb; [|discriminate].
  destruct (rot90_times_aligned k a b a1 b1 Hs Ha Hb) as (Hs1 & f & Hf).
  unfold np_flip, ndim. rewrite <- Hs1.
  destruct (index_ok (length (shape a1)) axis); [|discriminate].
  intros [= <-] [= <-]. split; [done |]. simpl.
  exists (fun idx => f (flip_index (shape a1)
                         (wrap_index (length (shape a1)) axis) idx)).
  intros idx. apply Hf.
Qed.

(** What [RandomRotFlip] returns once [k] and [axis] are drawn. *)
Lemma RandomRotFlip_call_at (s : sample) (image label : ndarray)
  (g g1 g2 : rng) (k axis : Z) :
  s !! "image" = Some image ->
  s !! "label" = Some label ->
  np_randint 0 4 g = (Ok k, g1) ->
  np_randint 0 2 g1 = (Ok axis, g2) ->
  0 <= axis < 2 ->
  (RandomRotFlip_call s g).1
  = (image' ← rot_flip (Z.to_nat k) axis image;
     label' ← rot_flip (Z.to_nat k) axis label;
     Ok ({[ "image" := image'; "label" := label' ]} : sample)).
Proof.
  intros Himage Hlabel Hk Hax Haxr. unfold RandomRotFlip_call.
  rewrite (get_key_Some _ _ _ Himage), (get_key_Some _ _ _ Hlabel).
  unfold mbind at 1 2 3, M_bind, lift at 1 2. rewrite Hk.
  rewrite rot_loop_separate. unfold rot_flip.
  destruct (rot90_times_cases (Z.to_nat k) image)
    as [(i1 & -> & Hnd & H3)|[-> Hk0]]; [|reflexivity].
  destruct (rot90_times_cases (Z.to_nat k) label)
    as [(l1 & -> & _)|[-> Hk0]].
  - unfold mbind at 1 2, M_bind, lift at 1. rewrite Hax. unfold_M.
    destruct (np_flip i1 axis); [|reflexivity].
    by destruct (np_flip l1 axis).
  - unfold_M. rewrite np_flip_Ok; [reflexivity |].
    rewrite Hnd. specialize (H3 Hk0). lia.
Qed.

(** C4: [RandomRotFlip] applies to the image and to the label the same
    transformation, made of the two numbers it draws: with [k] the result
    of [randint(0, 4)] and [axis] the result of the following
    [randint(0, 2)], both arrays get [k] quarter turns about axes (1, 2)
    followed by the flip along [axis].  On arrays of three axes or more it
    returns; image and label of one shape come out with one shape, every
    position holding the elements both had at one common position.  Each
    [k] of [[0, 4)] with each [axis] of [[0, 2)] is drawn, and then applied
    to both arrays, from some state of the generator. *)
Theorem RandomRotFlip_same_transformation (s : sample) (image label : ndarray)
  (g : rng) :
  s !! "image" = Some image ->
  s !! "label" = Some label ->
  (exists k axis,
     np_randint 0 4 g = (Ok k, advance 1 g)
     /\ np_randint 0 2 (advance 1 g) = (Ok axis, advance 1 (advance 1 g))
     /\ 0 <= k < 4 /\ 0 <= axis < 2
     /\ (RandomRotFlip_call s g).1
        = (image' ← rot_flip (Z.to_nat k) axis image;
           label' ← rot_flip (Z.to_nat k) axis label;
           Ok ({[ "image" := image'; "label" := label' ]} : sample))
     /\ ((3 <= ndim image)%nat -> (3 <= ndim label)%nat ->
         exists image' label',
           rot_flip (Z.to_nat k) axis image = Ok image'
           /\ rot_flip (Z.to_nat k) axis label = Ok label')
     /\ (forall image' label',
           rot_flip (Z.to_nat k) axis image = Ok image' ->
           rot_flip (Z.to_nat k) axis label = Ok label' ->
           shape image = shape label ->
           shape image' = shape label'
           /\ exists f : list nat -> list nat,
                forall idx, item image' idx = item image (f idx)
                            /\ item label' idx = item label (f idx)))
  /\ (forall k axis,
        0 <= k < 4 -> 0 <= axis < 2 ->
        exists g',
          np_randint 0 4 g' = (Ok k, advance 1 g')
          /\ np_randint 0 2 (advance 1 g') = (Ok axis, advance 1 (advance 1 g'))
          /\ (RandomRotFlip_call s g').1
             = (image' ← rot_flip (Z.to_nat k) axis image;
                label' ← rot_flip (Z.to_nat k) axis label;
                Ok ({[ "image" := image'; "label" := label' ]} : sample))).
Proof.
  intros Himage Hlabel. split.
  - pose proof (np_randint_cases 0 4 g) as Hk. case_decide; [|lia].
    destruct Hk as (k & Hk & Hkr).
    pose proof (np_randint_cases 0 2 (advance 1 g)) as Hax. case_decide; [|lia].
    destruct Hax as (axis & Hax & Haxr).
    exists k, axis. split; [exact Hk |]. split; [exact Hax |].
    split; [lia |]. split; [lia |].
    split; [|split].
    + by eapply RandomRotFlip_call_at.
    + intros Hi Hl. unfold rot_flip.
      destruct (rot90_times_total (Z.to_nat k) image Hi) as (i1 & -> & Hndi).
      destruct (rot90_times_total (Z.to_nat k) label Hl) as (l1 & -> & Hndl).
      unfold_M. rewrite !np_flip_Ok by lia. eauto.
    + intros image' label' Hi Hl Hs. by eapply rot_flip_aligned.
  - intros k axis Hk Hax.
    set (g' := {| ints := fun i => match i with O => k | S _ => axis end;
                  normals := fun _ => float_of_Z 0; cursor := O |}).
    assert (Hd1 : np_randint 0 4 g' = (Ok k, advance 1 g')).
    { unfold np_randint. cbn [ints cursor g' Z.leb Z.compare].
      rewrite Z.sub_0_r, Z.mod_small by lia. reflexivity. }
    assert (Hd2 : np_randint 0 2 (advance 1 g')
                  = (Ok axis, advance 1 (advance 1 g'))).
    { unfold np_randint. cbn [ints cursor g' advance Nat.add Z.leb Z.compare].
      rewrite Z.sub_0_r, Z.mod_small by lia. reflexivity. }
    exists g'. split; [exact Hd1 |]. split; [exact Hd2 |].
    by eapply RandomRotFlip_call_at.
Qed.

Lemma RandomRotFlip_same_transformation_witness :
  exists k axis,
    np_randint 0 4 g0 = (Ok k, advance 1 g0)
    /\ 0 <= k < 4 /\ 0 <= axis < 2
    /\ (RandomRotFlip_call sample_chw g0).1
       = (image' ← rot_flip (Z.to_nat k) axis (arange [1; 10; 9]%nat);
          label' ← rot_flip (Z.to_nat k) axis (arange [1; 10; 9]%nat);
          Ok ({[ "image" := image'; "label" := label' ]} : sample)).
Proof.
  destruct (proj1 (RandomRotFlip_same_transformation sample_chw
                     (arange [1; 10; 9]%nat) (arange [1; 10; 9]%nat) g0
                     eq_refl eq_refl))
    as (k & axis & Hd & _ & Hk & Hax & Hcall & _).
  exists k, axis. split; [exact Hd |]. split; [exact Hk |].
  split; [exact Hax | exact Hcall].
Defined.

(** ** Broadcasting on equal shapes *)

Lemma bsrc_rev_in_bounds (sh idx : list nat) :
  Forall2 lt idx sh -> bsrc_rev sh idx = idx.
Proof.
  induction 1 as [|i n idx sh Hi _ IH]; simpl; [reflexivity |].
  rewrite IH. destruct (Nat.eqb_spec n 1); [f_equal; lia | reflexivity].
Qed.

Lemma broadcast_src_in_bounds (sh idx : list nat) :
  in_bounds sh idx -> broadcast_src sh idx = idx.
Proof.
  intros H. unfold broadcast_src.
  rewrite bsrc_rev_in_bounds by by apply Forall2_reverse.
  apply reverse_involutive.
Qed.

Lemma in_bounds_3 (a b c i j k : nat) :
  (i < a)%nat -> (j < b)%nat -> (k < c)%nat -> in_bounds [a; b; c] [i; j; k].
Proof. intros. repeat constructor; done. Qed.

(** ** [CreateOnehotLabel] *)

Lemma np_setitem_row_channel (oh v : ndarray) (N a b c : nat) (i : nat) :
  shape oh = [N; a; b; c] -> shape v = [a; b; c] -> (i < N)%nat ->
  np_setitem_row oh (Z.of_nat i) v =
    Ok {| shape := [N; a; b; c];
          item := fun idx =>
            match idx with
            | i' :: r => if (i' =? i)%nat
                         then item v (broadcast_src [a; b; c] r)
                         else item oh idx
            | [] => item oh idx
            end |}.
Proof.
  intros Hoh Hv Hi. unfold np_setitem_row. rewrite Hoh, Hv.
  unfold index_ok.
  destruct (Z.leb_spec (- Z.of_nat N) (Z.of_nat i)); [|lia].
  destruct (Z.ltb_spec (Z.of_nat i) (Z.of_nat N)); [|lia].
  cbn -[broadcast_src Nat.eqb wrap_index]. rewrite !Nat.eqb_refl.
  cbn -[broadcast_src Nat.eqb wrap_index].
  replace (wrap_index N (Z.of_nat i)) with i; [reflexivity |].
  unfold wrap_index. destruct (Z.ltb_spec (Z.of_nat i) 0); lia.
Qed.

(** The loop over the classes [s, s + 1, ..., s + n - 1] fills exactly
    those channels, each with the mask of its class. *)
Lemma onehot_loop_channels (label oh : ndarray) (N a b c : nat) (n s : nat) :
  shape label = [a; b; c] -> shape oh = [N; a; b; c] -> (s + n <= N)%nat ->
  exists oh',
    onehot_loop (Z.of_nat <$> seq s n) label oh = Ok oh'
    /\ shape oh' = [N; a; b; c]
    /\ forall ch r,
         item oh' (ch :: r) =
           if decide (s <= ch < s + n)%nat
           then item (np_eq_mask label (Z.of_nat ch)) (broadcast_src [a; b; c] r)
           else item oh (ch :: r).
Proof.
  intros Hl. revert s oh. induction n as [|n IH]; intros s oh Hoh Hn.
  - exists oh. split; [reflexivity |]. split; [done |].
    intros ch r. case_decide; [lia | reflexivity].
  - cbn [seq fmap list_fmap onehot_loop].
    rewrite (np_setitem_row_channel oh _ N a b c s Hoh) by (done || lia).
    unfold mbind, result_bind.
    edestruct (IH (S s)) as (oh' & Hloop & Hs' & Hitem);
      [| | exists oh'; split; [exact Hloop |]]; [reflexivity | lia |].
    split; [done |]. intros ch r. rewrite Hitem. cbn [item].
    destruct (Nat.eqb_spec ch s) as [->|Hne]; repeat case_decide; try lia;
      reflexivity.
Qed.

(** The masks of the classes [s, ..., s + n - 1] at a voxel of class [v]. *)
Lemma sum_of_masks (x : Q) (v : Z) (n s : nat) :
  (x == inject_Z v)%Q ->
  (foldr Qplus 0
     ((fun ch => if Qeq_bool x (inject_Z (Z.of_nat ch)) then 1 else 0) <$> seq s n)
   == if decide (Z.of_nat s <= v < Z.of_nat (s + n))%Z then 1 else 0)%Q.
Proof.
  intros Hx. revert s. induction n as [|n IH]; intros s.
  - simpl. case_decide; [lia | reflexivity].
  - cbn [seq fmap list_fmap foldr]. rewrite IH.
    destruct (Qeq_bool x (inject_Z (Z.of_nat s))) eqn:Hq.
    + apply Qeq_bool_eq in Hq. rewrite Hx in Hq.
      assert (v = Z.of_nat s) by (by apply inject_Z_injective).
      repeat case_decide; try lia; reflexivity.
    + apply Qeq_bool_neq in Hq.
      assert (v <> Z.of_nat s) by (intros ->; by apply Hq).
      repeat case_decide; try lia; reflexivity.
Qed.

Lemma CreateOnehotLabel_returns (num_classes : Z) (s : sample)
  (image label : ndarray) (a b c : nat) :
  s !! "image" = Some image ->
  s !! "label" = Some label ->
  shape label = [a; b; c] ->
  0 <= num_classes ->
  exists onehot_label,
    CreateOnehotLabel_call num_classes s
      = Ok ({[ "image" := image; "label" := label;
               "onehot_label" := onehot_label ]} : sample)
    /\ shape onehot_label = [Z.to_nat num_classes; a; b; c]
    /\ forall ch r,
         item onehot_label (ch :: r) =
           if decide (ch < Z.to_nat num_classes)%nat
           then item (np_eq_mask label (Z.of_nat ch)) (broadcast_src [a; b; c] r)
           else 0%Q.
Proof.
  intros Himage Hlabel Hshape HC. unfold CreateOnehotLabel_call.
  rewrite (get_key_Some _ _ _ Himage), (get_key_Some _ _ _ Hlabel).
  unfold_M. unfold shape_at. rewrite Hshape, py_index_0, py_index_1, py_index_2.
  unfold_M. unfold np_zeros. cbn [existsb].
  destruct (Z.ltb_spec num_classes 0); [lia |].
  repeat (match goal with
          | |- context [Z.of_nat ?k <? 0] =>
              destruct (Z.ltb_spec (Z.of_nat k) 0); [lia |]
          end).
  cbn [orb]. unfold py_range.
  destruct (onehot_loop_channels label
              {| shape := Z.to_nat <$> [num_classes; Z.of_nat a; Z.of_nat b;
                                        Z.of_nat c];
                 item := fun _ => 0%Q |}
              (Z.to_nat num_classes) a b c (Z.to_nat num_classes) O)
    as (oh & Hloop & Hs & Hitem); [exact Hshape | | | ].
  { simpl. rewrite !Nat2Z.id. reflexivity. }
  { simpl. lia. }
  rewrite Hloop. exists oh. split; [reflexivity |]. split; [done |].
  intros ch r. rewrite Hitem. repeat case_decide; try lia; reflexivity.
Qed.

(** C5: for a sample whose label has three axes and a class count
    [num_classes >= 0], [CreateOnehotLabel] returns the sample with an
    [onehot_label] of shape [(num_classes, *label.shape)] whose channel [ch]
    is, for every [ch] in [[0, num_classes)], the 0/1 indicator of
    [label == ch]; when every label value is a class of [[0, num_classes)],
    the sum of [onehot_label] over the channel axis is 1 at every voxel. *)
Theorem CreateOnehotLabel_channels (num_classes : Z) (s : sample)
  (image label : ndarray) (a b c : nat) :
  s !! "image" = Some image ->
  s !! "label" = Some label ->
  shape label = [a; b; c] ->
  0 <= num_classes ->
  exists onehot_label,
    CreateOnehotLabel_call num_classes s
      = Ok ({[ "image" := image; "label" := label;
               "onehot_label" := onehot_label ]} : sample)
    /\ shape onehot_label = Z.to_nat num_classes :: shape label
    /\ (forall ch i j k,
          0 <= ch < num_classes -> (i < a)%nat -> (j < b)%nat -> (k < c)%nat ->
          item onehot_label [Z.to_nat ch; i; j; k]
          = if Qeq_bool (item label [i; j; k]) (inject_Z ch) then 1%Q else 0%Q)
    /\ ((forall i j k, (i < a)%nat -> (j < b)%nat -> (k < c)%nat ->
           exists v, 0 <= v < num_classes
                     /\ (item label [i; j; k] == inject_Z v)%Q) ->
        forall i j k, (i < a)%nat -> (j < b)%nat -> (k < c)%nat ->
          (item (np_sum_axis0 onehot_label) [i; j; k] == 1)%Q).
Proof.
  intros Himage Hlabel Hshape HC.
  destruct (CreateOnehotLabel_returns num_classes s image label a b c
              Himage Hlabel Hshape HC) as (oh & Hcall & Hs & Hitem).
  exists oh. split; [exact Hcall |]. split; [by rewrite Hshape |].
  split.
  - intros ch i j k Hch Hi Hj Hk. rewrite Hitem.
    case_decide; [|lia].
    rewrite broadcast_src_in_bounds by by apply in_bounds_3.
    cbn [np_eq_mask np_map item]. by rewrite Z2Nat.id by lia.
  - intros Hclasses i j k Hi Hj Hk.
    destruct (Hclasses i j k Hi Hj Hk) as (v & Hv & Hx).
    unfold np_sum_axis0. rewrite Hs. cbn [item].
    assert (Hmap :
      (fun ch => item oh [ch; i; j; k]) <$> seq 0 (Z.to_nat num_classes)
      = (fun ch => if Qeq_bool (item label [i; j; k]) (inject_Z (Z.of_nat ch))
                   then 1%Q else 0%Q) <$> seq 0 (Z.to_nat num_classes)).
    { apply Forall_fmap_ext, Forall_seq. intros ch Hch. rewrite Hitem.
      case_decide; [|lia].
      by rewrite broadcast_src_in_bounds by by apply in_bounds_3. }
    rewrite Hmap, (sum_of_masks _ v) by exact Hx.
    case_decide; [reflexivity | lia].
Qed.

Lemma CreateOnehotLabel_channels_witness :
  exists onehot_label,
    CreateOnehotLabel_call 4 sample_sdf
      = Ok ({[ "image" := arange [1; 2; 2]%nat; "label" := arange [1; 2; 2]%nat;
               "onehot_label" := onehot_label ]} : sample)
    /\ shape onehot_label = [4; 1; 2; 2]%nat
    /\ (item (np_sum_axis0 onehot_label) [0; 1; 1]%nat == 1)%Q.
Proof.
  destruct (CreateOnehotLabel_channels 4 sample_sdf (arange [1; 2; 2]%nat)
              (arange [1; 2; 2]%nat) 1 2 2 eq_refl eq_refl eq_refl
              ltac:(lia))
    as (oh & Hcall & Hs & _ & Hsum).
  exists oh. split; [exact Hcall |]. split; [exact Hs |].
  apply Hsum; [|lia..].
  intros i j k Hi Hj Hk.
  exists (Z.of_nat (ravel [1; 2; 2]%nat [i; j; k])). split; [|reflexivity].
  simpl. lia.
Defined.

(** C9, as stated, fails: a key of the input other than [image] and
    [label] is not in the returned sample. *)
Lemma CreateOnehotLabel_drops_other_keys :
  ~ (forall (num_classes : Z) (s out : sample),
       CreateOnehotLabel_call num_classes s = Ok out ->
       forall key a, s !! key = Some a -> out !! key = Some a).
Proof.
  intros Hkeep.
  destruct (CreateOnehotLabel_returns 2 sample_sdf (arange [1; 2; 2]%nat)
              (arange [1; 2; 2]%nat) 1 2 2 eq_refl eq_refl eq_refl ltac:(lia))
    as (oh & Hcall & _).
  specialize (Hkeep 2 sample_sdf _ Hcall "sdf" (arange [1; 2; 2]%nat) eq_refl).
  discriminate Hkeep.
Qed.

(** C9, amended: the returned sample holds [image] and [label] with the
    values of the input, the new [onehot_label], and no other key; keys of
    the input other than [image] and [label] are not carried over. *)
Theorem CreateOnehotLabel_keys (num_classes : Z) (s out : sample) :
  CreateOnehotLabel_call num_classes s = Ok out ->
  out !! "image" = s !! "image"
  /\ out !! "label" = s !! "label"
  /\ is_Some (out !! "onehot_label")
  /\ forall key, key <> "image" -> key <> "label" -> key <> "onehot_label" ->
       out !! key = None.
Proof.
  unfold CreateOnehotLabel_call, get_key. unfold_M.
  destruct (s !! "image") as [image|]; [|discriminate].
  destruct (s !! "label") as [label|]; [|discriminate].
  destruct (shape_at label 0); [|discriminate].
  destruct (shape_at label 1); [|discriminate].
  destruct (shape_at label 2); [|discriminate].
  destruct (np_zeros _); [|discriminate].
  destruct (onehot_loop _ _ _) as [oh|]; [|discriminate].
  intros [= <-]. split; [done |]. split; [done |]. split; [by eexists |].
  intros key H1 H2 H3. by simplify_map_eq.
Qed.

Lemma CreateOnehotLabel_keys_witness :
  exists out,
    CreateOnehotLabel_call 2 sample_sdf = Ok out
    /\ out !! "image" = sample_sdf !! "image"
    /\ out !! "label" = sample_sdf !! "label"
    /\ is_Some (out !! "onehot_label")
    /\ out !! "sdf" = None.
Proof.
  destruct (CreateOnehotLabel_returns 2 sample_sdf (arange [1; 2; 2]%nat)
              (arange [1; 2; 2]%nat) 1 2 2 eq_refl eq_refl eq_refl ltac:(lia))
    as (oh & Hcall & _).
  eexists. split; [exact Hcall |].
  destruct (CreateOnehotLabel_keys 2 sample_sdf _ Hcall) as (Hi & Hl & Ho & Hrest).
  split; [exact Hi |]. split; [exact Hl |]. split; [exact Ho |].
  apply Hrest; discriminate.
Defined.

(** ** [RandomNoise] *)

(** *** Comparisons of binary64 numbers *)

Lemma SFcompare_refl_l (x y : SpecFloat.spec_float) (c : comparison) :
  SpecFloat.SFcompare x y = Some c -> SpecFloat.SFcompare x x = Some Eq.
Proof.
  destruct x as [s | s | | s m e]; cbn; try done.
  - by destruct s.
  - intros _. rewrite Z.compare_refl, Pos.compare_cont_refl. by destruct s.
Qed.

Lemma SFcompare_refl_r (x y : SpecFloat.spec_float) (c : comparison) :
  SpecFloat.SFcompare x y = Some c -> SpecFloat.SFcompare y y = Some Eq.
Proof.
  destruct y as [s | s | | s m e]; cbn; try done.
  - by destruct s.
  - by destruct x.
  - intros _. rewrite Z.compare_refl, Pos.compare_cont_refl. by destruct s.
Qed.

Lemma float_ltb_leb (x y : PrimFloat.float) :
  PrimFloat.ltb x y = true -> PrimFloat.leb x y = true.
Proof.
  rewrite FloatAxioms.ltb_spec, FloatAxioms.leb_spec.
  unfold SpecFloat.SFltb, SpecFloat.SFleb.
  by destruct (SpecFloat.SFcompare _ _) as [[]|].
Qed.

Lemma float_leb_refl (x : PrimFloat.float) :
  PrimFloat.is_nan x = false -> PrimFloat.leb x x = true.
Proof.
  unfold PrimFloat.is_nan.
  rewrite FloatAxioms.eqb_spec, FloatAxioms.leb_spec.
  unfold SpecFloat.SFeqb, SpecFloat.SFleb.
  by destruct (SpecFloat.SFcompare _ _) as [[]|].
Qed.

Lemma float_leb_not_nan (x y : PrimFloat.float) :
  PrimFloat.leb x y = true ->
  PrimFloat.is_nan x = false /\ PrimFloat.is_nan y = false.
Proof.
  rewrite FloatAxioms.leb_spec. unfold SpecFloat.SFleb.
  destruct (SpecFloat.SFcompare _ _) as [c|] eqn:E; [|done]. intros _.
  unfold PrimFloat.is_nan. rewrite !FloatAxioms.eqb_spec.
  unfold SpecFloat.SFeqb.
  by rewrite (SFcompare_refl_l _ _ _ E), (SFcompare_refl_r _ _ _ E).
Qed.

(** The clip ufunc keeps a number that is not a NaN between its bounds, when
    the bounds are ordered. *)
Lemma npy_clip_bounds (x lo hi : PrimFloat.float) :
  PrimFloat.leb lo hi = true ->
  PrimFloat.is_nan x = false ->
  PrimFloat.leb lo (npy_clip x lo hi) = true
  /\ PrimFloat.leb (npy_clip x lo hi) hi = true.
Proof.
  intros Hle Hx.
  destruct (float_leb_not_nan _ _ Hle) as [Hlo Hhi].
  unfold npy_clip, npy_max, npy_min. rewrite Hx.
  destruct (PrimFloat.ltb lo x) eqn:H1.
  - rewrite Hx. destruct (PrimFloat.ltb x hi) eqn:H2.
    + split; by apply float_ltb_leb.
    + split; [done | by apply float_leb_refl].
  - rewrite Hlo. destruct (PrimFloat.ltb lo hi) eqn:H2.
    + split; [by apply float_leb_refl | done].
    + split; [done | by apply float_leb_refl].
Qed.

(** *** The transform *)

Lemma fget_key_Some (s : fsample) (key : string) (a : farray) :
  s !! key = Some a -> fget_key s key = Ok a.
Proof. unfold fget_key. by intros ->. Qed.

Lemma np_add_same_shape (x y : farray) (a b c : nat) :
  fshape x = [a; b; c] -> fshape y = [a; b; c] ->
  np_add x y =
    Ok {| fshape := [a; b; c];
          fitem := fun idx =>
            PrimFloat.add (fitem x (broadcast_src [a; b; c] idx))
                          (fitem y (broadcast_src [a; b; c] idx)) |}.
Proof.
  intros Hx Hy. unfold np_add, broadcast_shapes. rewrite Hx, Hy.
  cbn -[broadcast_src Nat.eqb]. rewrite !Nat.eqb_refl. reflexivity.
Qed.

(** What a returning call has computed, whatever the shape of the image. *)
Lemma RandomNoise_returns_inv (mu sigma : PrimFloat.float) (s out : fsample)
  (image label : farray) (g : rng) :
  s !! "image" = Some image ->
  s !! "label" = Some label ->
  (RandomNoise_call mu sigma s g).1 = Ok out ->
  exists (image' z : farray) (d0 d1 d2 : nat) (rest : list nat),
    out = {[ "image" := image'; "label" := label ]}
    /\ fshape image = d0 :: d1 :: d2 :: rest
    /\ (np_randn [d0; d1; d2] g).1 = Ok z
    /\ forall idx,
         fitem image' idx =
           PrimFloat.add
             (fitem image (broadcast_src (fshape image) idx))
             (PrimFloat.add
                (npy_clip
                   (PrimFloat.mul sigma
                      (fitem z (broadcast_src [d0; d1; d2] idx)))
                   (noise_lo sigma) (noise_hi sigma))
                mu).
Proof.
  intros Himage Hlabel. unfold RandomNoise_call.
  rewrite (fget_key_Some _ _ _ Himage), (fget_key_Some _ _ _ Hlabel).
  unfold_M.
  destruct (fshape image) as [|d0 [|d1 [|d2 rest]]] eqn:Hshape.
  - rewrite py_index_short by (simpl; lia). discriminate.
  - rewrite py_index_0, py_index_short by (simpl; lia). discriminate.
  - rewrite py_index_0, py_index_1, py_index_short by (simpl; lia).
    discriminate.
  - rewrite py_index_0, py_index_1, py_index_2.
    unfold np_randn. cbn iota beta. unfold np_add, broadcast_shapes. unfold_M.
    match goal with
    | |- context [broadcast_rev ?s1 ?s2] =>
        destruct (broadcast_rev s1 s2) as [sh|]; [|discriminate]
    end.
    cbn [fst]. intros [= <-].
    eexists _, _, d0, d1, d2, rest.
    split; [reflexivity |]. split; [reflexivity |]. split; [reflexivity |].
    intros idx. cbn [fitem fshape np_clip np_fmap]. by rewrite Hshape.
Qed.

(** On an image of three axes the call returns. *)
Lemma RandomNoise_returns (mu sigma : PrimFloat.float) (s : fsample)
  (image label : farray) (g : rng) (a b c : nat) :
  s !! "image" = Some image ->
  s !! "label" = Some label ->
  fshape image = [a; b; c] ->
  exists image' : farray,
    RandomNoise_call mu sigma s g
      = (Ok ({[ "image" := image'; "label" := label ]} : fsample),
         advance (a * b * c) g)
    /\ fshape image' = fshape image.
Proof.
  intros Himage Hlabel Hshape. unfold RandomNoise_call.
  rewrite (fget_key_Some _ _ _ Himage), (fget_key_Some _ _ _ Hlabel).
  unfold_M. rewrite Hshape, py_index_0, py_index_1, py_index_2.
  unfold np_randn. cbn iota beta.
  rewrite (np_add_same_shape image _ a b c) by done.
  cbn [foldr]. replace (a * (b * (c * 1)))%nat with (a * b * c)%nat by lia.
  eexists. split; reflexivity.
Qed.

(** C6, amended: whenever [RandomNoise] returns, the label is the one it
    was given, the image has at least three axes, and every element of the
    returned image is the float64 sum of the input element and of [n + mu],
    where [n] is [sigma] times the element of the array that
    [np.random.randn] drew, clipped to [[-2*sigma, 2*sigma]]; when the two
    bounds are ordered and the product is not a NaN, [n] lies between them.
    On an image of three axes the call does return, it consumes one normal
    draw per element, and the image keeps its shape.  Nothing bounds the
    distance of an element from its input by [2*sigma]: [mu] shifts it, and
    the sums round. *)
Theorem RandomNoise_deviation (mu sigma : PrimFloat.float) (s : fsample)
  (image label : farray) (g : rng) :
  s !! "image" = Some image ->
  s !! "label" = Some label ->
  (forall out,
     (RandomNoise_call mu sigma s g).1 = Ok out ->
     exists (image' z : farray) (d0 d1 d2 : nat) (rest : list nat),
       out = {[ "image" := image'; "label" := label ]}
       /\ fshape image = d0 :: d1 :: d2 :: rest
       /\ (np_randn [d0; d1; d2] g).1 = Ok z
       /\ forall idx,
            let x := PrimFloat.mul sigma
                       (fitem z (broadcast_src [d0; d1; d2] idx)) in
            let n := npy_clip x (noise_lo sigma) (noise_hi sigma) in
            fitem image' idx =
              PrimFloat.add (fitem image (broadcast_src (fshape image) idx))
                            (PrimFloat.add n mu)
            /\ (PrimFloat.leb (noise_lo sigma) (noise_hi sigma) = true ->
                PrimFloat.is_nan x = false ->
                PrimFloat.leb (noise_lo sigma) n = true
                /\ PrimFloat.leb n (noise_hi sigma) = true))
  /\ (forall a b c,
        fshape image = [a; b; c] ->
        exists image' z : farray,
          RandomNoise_call mu sigma s g
            = (Ok ({[ "image" := image'; "label" := label ]} : fsample),
               advance (a * b * c) g)
          /\ (np_randn [a; b; c] g).1 = Ok z
          /\ fshape image' = fshape image
          /\ forall i j k, (i < a)%nat -> (j < b)%nat -> (k < c)%nat ->
               let x := PrimFloat.mul sigma (fitem z [i; j; k]) in
               let n := npy_clip x (noise_lo sigma) (noise_hi sigma) in
               fitem image' [i; j; k] =
                 PrimFloat.add (fitem image [i; j; k]) (PrimFloat.add n mu)
               /\ (PrimFloat.leb (noise_lo sigma) (noise_hi sigma) = true ->
                   PrimFloat.is_nan x = false ->
                   PrimFloat.leb (noise_lo sigma) n = true
                   /\ PrimFloat.leb n (noise_hi sigma) = true)).
Proof.
  intros Himage Hlabel. split.
  - intros out Hout.
    destruct (RandomNoise_returns_inv mu sigma s out image label g
                Himage Hlabel Hout)
      as (image' & z & d0 & d1 & d2 & rest & Heq & Hshape & Hz & Hitem).
    exists image', z, d0, d1, d2, rest.
    split; [exact Heq |]. split; [exact Hshape |]. split; [exact Hz |].
    intros idx x n. split; [apply Hitem |].
    intros Hle Hx. by apply npy_clip_bounds.
  - intros a b c Hshape.
    destruct (RandomNoise_returns mu sigma s image label g a b c
                Himage Hlabel Hshape) as (image' & Hcall & Hs).
    assert (Hout : (RandomNoise_call mu sigma s g).1
                   = Ok ({[ "image" := image'; "label" := label ]} : fsample))
      by by rewrite Hcall.
    destruct (RandomNoise_returns_inv mu sigma s _ image label g
                Himage Hlabel Hout)
      as (image'' & z & d0 & d1 & d2 & rest & Heq & Hshape' & Hz & Hitem).
    assert (image'' = image') as ->.
    { apply (f_equal (fun m : fsample => m !! "image")) in Heq.
      by simplify_map_eq. }
    rewrite Hshape in Hshape'. injection Hshape' as <- <- <- <-.
    exists image', z.
    split; [exact Hcall |]. split; [exact Hz |]. split; [exact Hs |].
    intros i j k Hi Hj Hk x n.
    pose proof (Hitem [i; j; k]) as Hijk.
    rewrite Hshape, broadcast_src_in_bounds in Hijk by by apply in_bounds_3.
    split; [exact Hijk |].
    intros Hle Hx. by apply npy_clip_bounds.
Qed.

Lemma RandomNoise_deviation_witness :
  exists image' : farray,
    (RandomNoise_call (float_of_Z 0) (float_of_Q (1 # 10)) sample_fours g0).1
      = Ok ({[ "image" := image';
               "label" := np_full [1; 1; 2]%nat (float_of_Z 1) ]} : fsample)
    /\ fshape image' = [1; 1; 2]%nat.
Proof.
  destruct (proj2 (RandomNoise_deviation (float_of_Z 0) (float_of_Q (1 # 10))
                     sample_fours
                     (np_full [1; 1; 2]%nat (float_of_Z 4))
                     (np_full [1; 1; 2]%nat (float_of_Z 1)) g0
                     eq_refl eq_refl) 1 1 2 eq_refl)%nat
    as (image' & z & Hcall & _ & Hs & _).
  exists image'. split; [by rewrite Hcall | exact Hs].
Defined.

(** C6, as stated, fails: with [mu = 1.0] and [sigma = 0.0] every element
    moves by 1.0, which is more than [2 * sigma = 0.0]. *)
Lemma RandomNoise_mu_shifts :
  ~ (forall (mu sigma : PrimFloat.float) (s out : fsample) (g : rng)
            (image image' : farray),
       (RandomNoise_call mu sigma s g).1 = Ok out ->
       s !! "image" = Some image ->
       out !! "image" = Some image' ->
       forall idx, in_bounds (fshape image) idx ->
         PrimFloat.leb
           (PrimFloat.abs (PrimFloat.sub (fitem image' idx) (fitem image idx)))
           (PrimFloat.mul (float_of_Z 2) sigma) = true).
Proof.
  intros Hall.
  specialize (Hall (float_of_Z 1) (float_of_Z 0) sample_unit _ g0 _ _
                eq_refl eq_refl eq_refl [0; 0; 0]%nat).
  assert (Hb : in_bounds (fshape (np_full [1; 1; 1]%nat (float_of_Z 0)))
                 [0; 0; 0]%nat)
    by (repeat constructor).
  specialize (Hall Hb). vm_compute in Hall. discriminate Hall.
Qed.

(** With [mu = 0.0] too the distance can exceed [2 * sigma]: for
    [sigma = 0.1], an element 4.0 and a draw of 3.0 the clipped noise is
    [2 * sigma], and [4.0 + 2 * sigma] rounds to a float64 that lies further
    than [2 * sigma] from 4.0. *)
Lemma RandomNoise_rounding_exceeds :
  exists image' : farray,
    (RandomNoise_call (float_of_Z 0) (float_of_Q (1 # 10)) sample_fours g3).1
      = Ok ({[ "image" := image';
               "label" := np_full [1; 1; 2]%nat (float_of_Z 1) ]} : fsample)
    /\ PrimFloat.leb
         (PrimFloat.abs
            (PrimFloat.sub (fitem image' [0; 0; 0]%nat) (float_of_Z 4)))
         (PrimFloat.mul (float_of_Z 2) (float_of_Q (1 # 10))) = false.
Proof.
  destruct (RandomNoise_returns (float_of_Z 0) (float_of_Q (1 # 10))
              sample_fours (np_full [1; 1; 2]%nat (float_of_Z 4))
              (np_full [1; 1; 2]%nat (float_of_Z 1)) g3 1 1 2
              eq_refl eq_refl eq_refl)%nat as (image' & Hcall & _).
  assert (Hout : (RandomNoise_call (float_of_Z 0) (float_of_Q (1 # 10))
                    sample_fours g3).1
                 = Ok ({[ "image" := image';
                          "label" := np_full [1; 1; 2]%nat (float_of_Z 1) ]}
                       : fsample))
    by by rewrite Hcall.
  destruct (RandomNoise_returns_inv _ _ sample_fours _
              (np_full [1; 1; 2]%nat (float_of_Z 4))
              (np_full [1; 1; 2]%nat (float_of_Z 1)) g3
              eq_refl eq_refl Hout)
    as (image'' & z & d0 & d1 & d2 & rest & Heq & Hshape & Hz & Hitem).
  assert (image'' = image') as ->.
  { apply (f_equal (fun m : fsample => m !! "image")) in Heq.
    by simplify_map_eq. }
  exists image'. split; [exact Hout |].
  injection Hshape as <- <- <- <-. injection Hz as <-.
  rewrite Hitem. vm_compute. reflexivity.
Qed.

(** ** The [Drive] dataset *)

(** Reordering by an index array keeps the other axes. *)
Lemma np_getitem_fancy_inv (a a' : ndarray) (ids : list Z) :
  np_getitem a [Fancy ids; Slice None None; Slice None None; Slice None None]
    = Ok a' ->
  exists n c h w rest,
    shape a = n :: c :: h :: w :: rest
    /\ shape a' = length ids :: c :: h :: w :: rest.
Proof.
  unfold np_getitem.
  destruct (shape a) as [|n [|c [|h [|w rest]]]]; cbn [getitem_view];
    rewrite ?slice_indices_full; try destruct (forallb _ ids); unfold_M;
    try discriminate.
  intros [= <-]. by exists n, c, h, w, rest.
Qed.

Lemma Drive_init_shapes (loaded : ndarray * ndarray * ndarray)
  (t : option (sample -> M sample)) (g g1 : rng) (self : Drive) :
  Drive_init loaded t g = (Ok self, g1) ->
  transform self = t
  /\ exists N ic ih iw irest lc lh lw lrest,
       shape (image_list self) = N :: ic :: ih :: iw :: irest
       /\ shape (label_list self) = N :: lc :: lh :: lw :: lrest.
Proof.
  destruct loaded as [[il ll] ml]. unfold Drive_init.
  unfold_M. destruct (np_len il) as [n|]; [|discriminate].
  unfold np_permutation.
  set (ids := shuffle _ _ _ _).
  destruct (np_getitem il _) as [il'|] eqn:Hil; [|discriminate].
  destruct (np_getitem ll _) as [ll'|] eqn:Hll; [|discriminate].
  destruct (np_getitem ml _) as [ml'|] eqn:Hml; [|discriminate].
  intros [= <- _]. cbn [transform image_list label_list]. split; [done |].
  apply np_getitem_fancy_inv in Hil as (? & ic & ih & iw & irest & _ & Hil).
  apply np_getitem_fancy_inv in Hll as (? & lc & lh & lw & lrest & _ & Hll).
  by exists (length ids), ic, ih, iw, irest, lc, lh, lw, lrest.
Qed.

Lemma np_getitem_int_out_of_range (a : ndarray) (n : nat) (sh : list nat)
  (idx : Z) (ixs : list ix) :
  shape a = n :: sh ->
  idx < - Z.of_nat n \/ Z.of_nat n <= idx ->
  np_getitem a (Int idx :: ixs) = Err IndexError.
Proof.
  intros Hs Hidx. unfold np_getitem. rewrite Hs. cbn [getitem_view].
  unfold index_ok.
  destruct (Z.leb_spec (- Z.of_nat n) idx);
    destruct (Z.ltb_spec idx (Z.of_nat n)); try lia; reflexivity.
Qed.

Lemma index_ok_in_range (n : nat) (idx : Z) :
  - Z.of_nat n <= idx < Z.of_nat n -> index_ok n idx = true.
Proof.
  intros H. unfold index_ok.
  destruct (Z.leb_spec (- Z.of_nat n) idx);
    destruct (Z.ltb_spec idx (Z.of_nat n)); try lia; reflexivity.
Qed.

Lemma slice_indices_first (n : nat) :
  slice_indices (Some 0) (Some 1) n = (O, Nat.min 1 n).
Proof.
  unfold slice_indices, slice_bound.
  destruct (Z.ltb_spec 0 0); [lia |]. destruct (Z.ltb_spec 1 0); [lia |].
  f_equal; lia.
Qed.

Lemma Drive_getitem_in_range (self : Drive) (idx : Z) (g : rng)
  (N ic ih iw lc lh lw : nat) (irest lrest : list nat) :
  shape (image_list self) = N :: ic :: ih :: iw :: irest ->
  shape (label_list self) = N :: lc :: lh :: lw :: lrest ->
  - Z.of_nat N <= idx < Z.of_nat N ->
  Drive_getitem_returns self idx g (wrap_index N idx).
Proof.
  intros Hil Hll Hidx. unfold Drive_getitem_returns, Drive_getitem, np_getitem.
  rewrite Hil, Hll. cbn [getitem_view].
  rewrite (index_ok_in_range N idx Hidx), !slice_indices_full, slice_indices_first.
  unfold_M. cbn [fst snd].
  eexists _, _. split; [destruct (transform self); reflexivity |].
  cbn [item shape]. split; [reflexivity |].
  split; [by intros [|? [|? [|? ?]]] |].
  split; [by exists N, lc, (lh :: lw :: lrest) |].
  by intros ch [|? [|? ?]].
Qed.

(** C8, amended: on a constructed dataset of length [N], [__getitem__(idx)]
    raises [IndexError] whenever [idx] is outside [[-N, N)]; for [idx] in
    [[0, N)] it returns the sample built from the whole of
    [image_list[idx]] and the first channel of [label_list[idx]], and for
    [idx] in [[-N, 0)] the one built in the same way at [idx + N]; the
    transform is applied when there is one and the stored arrays are as
    they were. *)
Theorem Drive_getitem_spec (loaded : ndarray * ndarray * ndarray)
  (t : option (sample -> M sample)) (g0 g1 : rng) (self : Drive) (N : nat)
  (idx : Z) (g : rng) :
  Drive_init loaded t g0 = (Ok self, g1) ->
  Drive_len self = Ok N ->
  (idx < - Z.of_nat N \/ Z.of_nat N <= idx ->
   Drive_getitem self idx g = (Err IndexError, g))
  /\ (0 <= idx < Z.of_nat N ->
      Drive_getitem_returns self idx g (Z.to_nat idx))
  /\ (- Z.of_nat N <= idx < 0 ->
      Drive_getitem_returns self idx g (Z.to_nat (idx + Z.of_nat N))).
Proof.
  intros Hinit Hlen.
  destruct (Drive_init_shapes _ _ _ _ _ Hinit)
    as (_ & N' & ic & ih & iw & irest & lc & lh & lw & lrest & Hil & Hll).
  unfold Drive_len, np_len in Hlen. rewrite Hil in Hlen. injection Hlen as ->.
  split; [|split].
  - intros Hout. unfold Drive_getitem.
    rewrite (np_getitem_int_out_of_range _ N _ idx [] Hil Hout). reflexivity.
  - intros Hidx.
    replace (Z.to_nat idx) with (wrap_index N idx)
      by (unfold wrap_index; destruct (Z.ltb_spec idx 0); lia).
    eapply Drive_getitem_in_range; [done | done | lia].
  - intros Hidx.
    replace (Z.to_nat (idx + Z.of_nat N)) with (wrap_index N idx)
      by (unfold wrap_index; destruct (Z.ltb_spec idx 0); lia).
    eapply Drive_getitem_in_range; [done | done | lia].
Qed.

Lemma Drive_getitem_spec_witness :
  exists self g1,
    Drive_init loaded0 None g0 = (Ok self, g1)
    /\ Drive_len self = Ok 2%nat
    /\ Drive_getitem_returns self 1 g1 (Z.to_nat 1).
Proof.
  eexists _, _. split; [reflexivity |]. split; [reflexivity |].
  apply (proj1 (proj2 (Drive_getitem_spec loaded0 None g0 _ _ 2 1 _
                         eq_refl eq_refl))).
  simpl. lia.
Defined.

(** C8, as stated, fails: a negative index down to [-N] is outside
    [[0, N)] and is served, counting from the end. *)
Lemma Drive_getitem_negative_index :
  ~ (forall (loaded : ndarray * ndarray * ndarray)
            (t : option (sample -> M sample)) (g0 g1 : rng) (self : Drive)
            (N : nat) (idx : Z) (g : rng),
       Drive_init loaded t g0 = (Ok self, g1) ->
       Drive_len self = Ok N ->
       idx < 0 \/ Z.of_nat N <= idx ->
       (Drive_getitem self idx g).1 = Err IndexError).
Proof.
  intros Hall.
  specialize (Hall loaded0 None g0 _ _ 2%nat (-1) g0 eq_refl eq_refl
                ltac:(left; lia)).
  vm_compute in Hall. discriminate Hall.
Qed.

(** * Further properties of the transforms, the dataset and the sampler *)

(** ** [CenterCrop] beyond the padding branch *)

Lemma CenterCrop_without_padding_witness :
  exists image' label',
    CenterCrop_call [4; 5] sample_large
      = Ok ({[ "image" := image'; "label" := label' ]} : sample)
    /\ shape image' = [4; 5; 3]%nat
    /\ shape label' = [4; 5; 3]%nat
    /\ item image' [0; 0; 0]%nat = item (arange [10; 9; 3]%nat) [3; 2; 0]%nat.
Proof.
  destruct (CenterCrop_without_padding sample_large (arange [10; 9; 3]%nat)
              (arange [10; 9; 3]%nat) 10 9 3 [3%nat] 4 5
              eq_refl eq_refl eq_refl eq_refl ltac:(simpl; lia) ltac:(simpl; lia))
    as (image' & label' & Hcall & Hsi & Hsl & _ & _ & Hitem & _).
  exists image', label'. split; [exact Hcall |]. split; [exact Hsi |].
  split; [exact Hsl |]. apply (Hitem 0 0 [0])%nat.
Defined.

(** A slice [a:a + e] never holds more than [e] positions. *)
Lemma slice_indices_extent (a e : Z) (len : nat) :
  0 <= e -> Z.of_nat (slice_indices (Some a) (Some (a + e)) len).2 <= e.
Proof.
  intros He. unfold slice_indices, slice_bound. cbn [snd].
  destruct (Z.ltb_spec a 0); destruct (Z.ltb_spec (a + e) 0); lia.
Qed.

(** What a returning call of [CenterCrop] was given and what it built. *)
Lemma CenterCrop_returns_label (output_size : list Z) (s out : sample) :
  CenterCrop_call output_size s = Ok out ->
  exists o0 o1 orest image' label' s0 s1 rest w1 h1,
    output_size = o0 :: o1 :: orest
    /\ out = {[ "image" := image'; "label" := label' ]}
    /\ shape label' = (slice_indices (Some w1) (Some (w1 + o0)) s0).2
                      :: (slice_indices (Some h1) (Some (h1 + o1)) s1).2
                      :: rest.
Proof.
  intros Hcall.
  destruct (s !! "image") as [image|] eqn:Himage;
    [|by unfold CenterCrop_call, get_key in Hcall; rewrite Himage in Hcall].
  destruct (s !! "label") as [label|] eqn:Hlabel;
    [|by unfold CenterCrop_call, get_key in Hcall;
         rewrite Himage, Hlabel in Hcall].
  destruct (CenterCrop_returns_inv _ _ _ _ _ Himage Hlabel Hcall)
    as (s0 & s1 & rest & o0 & o1 & orest & Hshape & -> & Ho0 & Ho1).
  revert Hcall. unfold CenterCrop_call.
  rewrite (get_key_Some _ _ _ Himage), (get_key_Some _ _ _ Hlabel).
  unfold_M. unfold shape_at. rewrite Hshape, !py_index_0, !py_index_1. unfold_M.
  destruct (Z.leb_spec (Z.of_nat s0) o0); [lia |].
  destruct (Z.leb_spec (Z.of_nat s1) o1); [lia |].
  destruct (unpack3 (shape image)) as [[[w h] d]|]; [|discriminate].
  unfold np_getitem at 1. rewrite Hshape. cbn [getitem_view].
  set (w1 := py_round_half (w - o0)). set (h1 := py_round_half (h - o1)).
  destruct (slice_indices (Some w1) (Some (w1 + o0)) s0) as [lo0 n0] eqn:Hs0.
  destruct (slice_indices (Some h1) (Some (h1 + o1)) s1) as [lo1 n1] eqn:Hs1.
  unfold_M. cbn [fst snd].
  destruct (np_getitem image _) as [image'|]; [|discriminate].
  intros [= <-].
  exists o0, o1, orest, image'. eexists. exists s0, s1, rest, w1, h1.
  split; [reflexivity |]. split; [reflexivity |].
  cbn [shape]. by rewrite Hs0, Hs1.
Qed.

(** [CenterCrop] cannot be applied twice: what it returns has, on its first
    two axes, at most [output_size] positions, so a second call with the
    same [output_size] takes the padding branch and raises. *)
Theorem CenterCrop_twice_raises (o0 o1 : Z) (orest : list Z) (s out : sample) :
  CenterCrop_call (o0 :: o1 :: orest) s = Ok out ->
  0 <= o0 \/ 0 <= o1 ->
  CenterCrop_call (o0 :: o1 :: orest) out = Err ValueError.
Proof.
  intros Hcall Hpos.
  destruct (CenterCrop_returns_label _ _ _ Hcall)
    as (o0' & o1' & orest' & image' & label' & s0 & s1 & rest & w1 & h1
        & [= <- <- <-] & -> & Hshape).
  eapply CenterCrop_padding_raises;
    [by simplify_map_eq | by simplify_map_eq | exact Hshape | reflexivity |].
  destruct Hpos as [H0|H1];
    [left | right]; by apply slice_indices_extent.
Qed.

Lemma CenterCrop_twice_raises_witness :
  exists out,
    CenterCrop_call [4; 5] sample_large = Ok out
    /\ CenterCrop_call [4; 5] out = Err ValueError.
Proof.
  eexists. split; [reflexivity |].
  apply (CenterCrop_twice_raises 4 5 [] sample_large _ eq_refl). left. lia.
Defined.

(** [CenterCrop] cannot serve as the transform of a [Drive] dataset: the
    label of every sample has a single channel on axis 0, so for any
    [output_size[0] >= 1] the padding branch is taken and [__getitem__]
    raises, at every valid index. *)
Theorem Drive_getitem_CenterCrop_raises (loaded : ndarray * ndarray * ndarray)
  (o0 o1 : Z) (orest : list Z) (g0 g1 : rng) (self : Drive) (N : nat)
  (idx : Z) (g : rng) :
  Drive_init loaded
    (Some (fun s => lift (CenterCrop_call (o0 :: o1 :: orest) s))) g0
    = (Ok self, g1) ->
  Drive_len self = Ok N ->
  - Z.of_nat N <= idx < Z.of_nat N ->
  1 <= o0 ->
  Drive_getitem self idx g = (Err ValueError, g).
Proof.
  intros Hinit Hlen Hidx Ho0.
  destruct (Drive_init_shapes _ _ _ _ _ Hinit)
    as (Ht & N' & ic & ih & iw & irest & lc & lh & lw & lrest & Hil & Hll).
  unfold Drive_len, np_len in Hlen. rewrite Hil in Hlen. injection Hlen as ->.
  destruct (Drive_getitem_in_range self idx g N ic ih iw lc lh lw irest lrest
              Hil Hll Hidx)
    as (image & label & -> & _ & _ & (n & ch & rest & Hll' & Hshape) & _).
  rewrite Hll in Hll'. injection Hll' as <- <- <-.
  rewrite Ht. unfold_M.
  erewrite CenterCrop_padding_raises;
    [reflexivity | by simplify_map_eq | by simplify_map_eq | exact Hshape
     | reflexivity | left; lia].
Qed.

Lemma Drive_getitem_CenterCrop_raises_witness :
  exists self g1,
    Drive_init loaded0 (Some (fun s => lift (CenterCrop_call [1; 1] s))) g0
      = (Ok self, g1)
    /\ Drive_getitem self 0 g1 = (Err ValueError, g1).
Proof.
  eexists _, _. split; [reflexivity |].
  apply (Drive_getitem_CenterCrop_raises loaded0 1 1 [] g0 _ _ 2 0 _
           eq_refl eq_refl); simpl; lia.
Defined.

(** ** [RandomCrop] on samples whose arrays agree on axes 1 and 2 *)

Lemma np_pad_three_pairs (a : ndarray) (d w h : nat) (pw ph : Z) :
  shape a = [d; w; h] -> 0 <= pw -> 0 <= ph ->
  exists a',
    np_pad a [(0, 0); (pw, pw); (ph, ph)] = Ok a'
    /\ padded_by (Z.to_nat pw) (Z.to_nat ph) a a'.
Proof.
  intros Hs Hpw Hph. unfold np_pad, as_pairs, ndim. rewrite Hs. cbn [existsb fst snd].
  destruct (Z.ltb_spec 0 0); [lia |].
  destruct (Z.ltb_spec pw 0); [lia |].
  destruct (Z.ltb_spec ph 0); [lia |]. cbn [orb length].
  case_decide; [|done]. unfold_M. cbn [list_fmap fst snd].
  eexists. split; [reflexivity |].
  exists d, w, h. split; [done |].
  change (Z.to_nat 0) with O.
  split; [cbn [shape pad_shape]; f_equal; lia |].
  intros c i j Hc Hi Hj. cbn [item pad_source].
  destruct (Nat.leb_spec 0 c); [|lia].
  destruct (Nat.ltb_spec c (0 + d)); [|lia]. cbn [andb].
  destruct (Nat.leb_spec (Z.to_nat pw) i);
    destruct (Nat.ltb_spec i (Z.to_nat pw + w));
    destruct (Nat.leb_spec (Z.to_nat ph) j);
    destruct (Nat.ltb_spec j (Z.to_nat ph + h));
    cbn [andb fmap option_fmap option_map]; case_decide; try lia;
    try reflexivity.
  by rewrite Nat.sub_0_r.
Qed.

Lemma padded_by_nothing (a : ndarray) (d w h : nat) :
  shape a = [d; w; h] -> padded_by 0 0 a a.
Proof.
  intros Hs. exists d, w, h. split; [done |].
  split; [by rewrite Hs, !Nat.add_0_r |].
  intros c i j Hc Hi Hj. case_decide; [|lia]. by rewrite !Nat.sub_0_r.
Qed.

(** What the padding step (lines 84-95) returns. *)
Lemma RandomCrop_pad_padded (output_size : list Z) (image label : ndarray)
  (sdf : option ndarray) (d ld w h : nat) (o0 o1 o2 : Z) (orest : list Z) :
  shape image = [d; w; h] ->
  shape label = [ld; w; h] ->
  (forall a, sdf = Some a -> exists sd, shape a = [sd; w; h]) ->
  output_size = o0 :: o1 :: o2 :: orest ->
  let small := Z.of_nat ld <= o0 \/ Z.of_nat w <= o1 \/ Z.of_nat h <= o2 in
  let pw := if decide small
            then Z.to_nat (Z.max ((o1 - Z.of_nat w) / 2 + 3) 0) else O in
  let ph := if decide small
            then Z.to_nat (Z.max ((o2 - Z.of_nat h) / 2 + 3) 0) else O in
  exists image' label' sdf',
    RandomCrop_pad output_size image label sdf = Ok (image', label', sdf')
    /\ padded_by pw ph image image'
    /\ padded_by pw ph label label'
    /\ match sdf, sdf' with
       | Some a, Some a' => padded_by pw ph a a'
       | None, None => True
       | _, _ => False
       end
    /\ o1 < Z.of_nat (pw + w + pw)
    /\ o2 < Z.of_nat (ph + h + ph).
Proof.
  intros Hi Hl Hsdf -> small pw ph.
  pose proof (Z.div_mod (o1 - Z.of_nat w) 2 ltac:(lia)) as Hd1.
  pose proof (Z.mod_pos_bound (o1 - Z.of_nat w) 2 ltac:(lia)) as Hm1.
  pose proof (Z.div_mod (o2 - Z.of_nat h) 2 ltac:(lia)) as Hd2.
  pose proof (Z.mod_pos_bound (o2 - Z.of_nat h) 2 ltac:(lia)) as Hm2.
  assert (Hcond :
    RandomCrop_pad (o0 :: o1 :: o2 :: orest) image label sdf =
      if decide small then
        image' ← np_pad image [(0, 0); (Z.max ((o1 - Z.of_nat w) / 2 + 3) 0,
                                        Z.max ((o1 - Z.of_nat w) / 2 + 3) 0);
                               (Z.max ((o2 - Z.of_nat h) / 2 + 3) 0,
                                Z.max ((o2 - Z.of_nat h) / 2 + 3) 0)];
        label' ← np_pad label [(0, 0); (Z.max ((o1 - Z.of_nat w) / 2 + 3) 0,
                                        Z.max ((o1 - Z.of_nat w) / 2 + 3) 0);
                               (Z.max ((o2 - Z.of_nat h) / 2 + 3) 0,
                                Z.max ((o2 - Z.of_nat h) / 2 + 3) 0)];
        sdf' ← match sdf with
               | Some a =>
                   Some <$> np_pad a
                     [(0, 0); (Z.max ((o1 - Z.of_nat w) / 2 + 3) 0,
                               Z.max ((o1 - Z.of_nat w) / 2 + 3) 0);
                      (Z.max ((o2 - Z.of_nat h) / 2 + 3) 0,
                       Z.max ((o2 - Z.of_nat h) / 2 + 3) 0)]
               | None => Ok None
               end;
        Ok (image', label', sdf')
      else Ok (image, label, sdf)).
  { unfold RandomCrop_pad, shape_at. rewrite Hl.
    rewrite !py_index_0, !py_index_1, !py_index_2.
    unfold mbind at 1 2 3, result_bind at 1 2 3, fmap at 1, result_fmap at 1.
    destruct (Z.leb_spec (Z.of_nat ld) o0).
    { case_decide; [reflexivity | unfold small in *; lia]. }
    unfold mbind at 1 2 3, result_bind at 1 2 3, fmap at 1, result_fmap at 1.
    destruct (Z.leb_spec (Z.of_nat w) o1).
    { case_decide; [reflexivity | unfold small in *; lia]. }
    unfold mbind at 1 2 3, result_bind at 1 2 3, fmap at 1, result_fmap at 1.
    destruct (Z.leb_spec (Z.of_nat h) o2);
      case_decide; try reflexivity; unfold small in *; lia. }
  rewrite Hcond. clear Hcond. subst pw ph. case_decide as Hsmall.
  - destruct (np_pad_three_pairs image d w h
                (Z.max ((o1 - Z.of_nat w) / 2 + 3) 0)
                (Z.max ((o2 - Z.of_nat h) / 2 + 3) 0) Hi)
      as (image' & -> & Hpi); [lia.. |].
    destruct (np_pad_three_pairs label ld w h
                (Z.max ((o1 - Z.of_nat w) / 2 + 3) 0)
                (Z.max ((o2 - Z.of_nat h) / 2 + 3) 0) Hl)
      as (label' & -> & Hpl); [lia.. |].
    unfold_M. destruct sdf as [a|].
    + destruct (Hsdf a eq_refl) as [sd Ha].
      destruct (np_pad_three_pairs a sd w h
                  (Z.max ((o1 - Z.of_nat w) / 2 + 3) 0)
                  (Z.max ((o2 - Z.of_nat h) / 2 + 3) 0) Ha)
        as (a' & -> & Hpa); [lia.. |].
      exists image', label', (Some a'). repeat split; try done; lia.
    + exists image', label', None. repeat split; try done; lia.
  - exists image, label, sdf.
    split; [reflexivity |].
    split; [by eapply padded_by_nothing |].
    split; [by eapply padded_by_nothing |].
    split; [|unfold small in *; lia].
    destruct sdf as [a|]; [|done].
    destruct (Hsdf a eq_refl) as [sd Ha]. by eapply padded_by_nothing.
Qed.

(** The padding step (lines 84-95): when one of the three label dimensions
    is at most its [output_size] entry, image, label and sdf get the same
    zero border on axes 1 and 2 and none on axis 0; afterwards axes 1 and 2
    are strictly longer than [output_size[1]] and [output_size[2]], so the
    draw of the offsets cannot fail. *)
Theorem RandomCrop_pad_spec (output_size : list Z) (image label : ndarray)
  (sdf : option ndarray) (d ld w h : nat) (o0 o1 o2 : Z) (orest : list Z) :
  shape image = [d; w; h] ->
  shape label = [ld; w; h] ->
  (forall a, sdf = Some a -> exists sd, shape a = [sd; w; h]) ->
  output_size = o0 :: o1 :: o2 :: orest ->
  let small := Z.of_nat ld <= o0 \/ Z.of_nat w <= o1 \/ Z.of_nat h <= o2 in
  let pw := if decide small
            then Z.to_nat (Z.max ((o1 - Z.of_nat w) / 2 + 3) 0) else O in
  let ph := if decide small
            then Z.to_nat (Z.max ((o2 - Z.of_nat h) / 2 + 3) 0) else O in
  exists image' label' sdf',
    RandomCrop_pad output_size image label sdf = Ok (image', label', sdf')
    /\ padded_by pw ph image image'
    /\ padded_by pw ph label label'
    /\ match sdf, sdf' with
       | Some a, Some a' => padded_by pw ph a a'
       | None, None => True
       | _, _ => False
       end
    /\ o1 < Z.of_nat (pw + w + pw)
    /\ o2 < Z.of_nat (ph + h + ph).
Proof.
  intros Hi Hl Hsdf Hos.
  exact (RandomCrop_pad_padded output_size image label sdf d ld w h o0 o1 o2
           orest Hi Hl Hsdf Hos).
Qed.

Lemma RandomCrop_pad_spec_witness :
  exists image' label',
    RandomCrop_pad [1; 12; 4] (arange [1; 10; 9]%nat) (arange [1; 10; 9]%nat) None
      = Ok (image', label', None)
    /\ padded_by 4 0 (arange [1; 10; 9]%nat) image'
    /\ padded_by 4 0 (arange [1; 10; 9]%nat) label'
    /\ 12 < Z.of_nat (4 + 10 + 4).
Proof.
  destruct (RandomCrop_pad_spec [1; 12; 4] (arange [1; 10; 9]%nat)
              (arange [1; 10; 9]%nat) None 1 1 10 9 1 12 4 []
              eq_refl eq_refl ltac:(discriminate) eq_refl)
    as (image' & label' & [a'|] & Hpad & Hi & Hl & Hs & Hw & _); [done |].
  exists image', label'. split; [exact Hpad |].
  split; [exact Hi |]. split; [exact Hl | exact Hw].
Defined.

Lemma window_of_crop12 (a : ndarray) (d w h : nat) (w1 h1 e1 e2 : Z) :
  shape a = [d; w; h] ->
  0 <= w1 -> 0 <= e1 -> w1 + e1 <= Z.of_nat w ->
  0 <= h1 -> 0 <= e2 -> h1 + e2 <= Z.of_nat h ->
  exists a'',
    crop12 a w1 h1 e1 e2 = Ok a''
    /\ window_of (Z.to_nat w1) (Z.to_nat h1) (Z.to_nat e1) (Z.to_nat e2) a a''.
Proof.
  intros Hs ? ? ? ? ? ?.
  destruct (crop12_spec a d w h [] w1 h1 e1 e2 Hs) as (a'' & Hc & Hspec).
  destruct Hspec as [Hs'' Hitem]; [lia.. |].
  exists a''. split; [exact Hc |].
  exists d, w, h. split; [done |]. split; [lia |]. split; [lia |].
  split; [done |]. intros c i j. apply Hitem.
Qed.

(** The draw and the slicing on arrays that are large enough. *)
Lemma RandomCrop_crop_windows (output_size : list Z) (image' label' : ndarray)
  (sdf' : option ndarray) (d ld w h : nat) (o0 o1 o2 : Z) (orest : list Z)
  (g : rng) :
  shape image' = [d; w; h] ->
  shape label' = [ld; w; h] ->
  (forall a, sdf' = Some a -> exists sd, shape a = [sd; w; h]) ->
  output_size = o0 :: o1 :: o2 :: orest ->
  0 <= o1 < Z.of_nat w ->
  0 <= o2 < Z.of_nat h ->
  exists w1 h1 image'' label'' sdf'',
    (RandomCrop_crop output_size image' label' sdf' g).1
      = Ok (match sdf'' with
            | Some a'' => {[ "image" := image''; "label" := label'';
                             "sdf" := a'' ]}
            | None => {[ "image" := image''; "label" := label'' ]}
            end)
    /\ window_of w1 h1 (Z.to_nat o1) (Z.to_nat o2) image' image''
    /\ window_of w1 h1 (Z.to_nat o1) (Z.to_nat o2) label' label''
    /\ match sdf', sdf'' with
       | Some a, Some a'' => window_of w1 h1 (Z.to_nat o1) (Z.to_nat o2) a a''
       | None, None => True
       | _, _ => False
       end.
Proof.
  intros Hi Hl Hsdf -> Ho1 Ho2. unfold RandomCrop_crop.
  rewrite Hi. cbn [unpack_dwh]. rewrite py_index_1, py_index_2.
  unfold mbind at 1 2, M_bind, lift at 1 2.
  pose proof (np_randint_cases 0 (Z.of_nat w - o1) g) as Hw1.
  case_decide; [|lia]. destruct Hw1 as (w1 & Hw1 & Hw1r).
  pose proof (np_randint_cases 0 (Z.of_nat h - o2) (advance 1 g)) as Hh1.
  case_decide; [|lia]. destruct Hh1 as (h1 & Hh1 & Hh1r).
  destruct (window_of_crop12 image' d w h w1 h1 o1 o2 Hi)
    as (image'' & Hci & Hwi); [lia.. |].
  destruct (window_of_crop12 label' ld w h w1 h1 o1 o2 Hl)
    as (label'' & Hcl & Hwl); [lia.. |].
  unfold mbind at 1, M_bind. rewrite Hw1.
  unfold mbind at 1 2, M_bind, lift at 1. rewrite Hh1.
  unfold_M. rewrite Hcl, Hci.
  destruct sdf' as [a|].
  - destruct (Hsdf a eq_refl) as [sd Ha].
    destruct (window_of_crop12 a sd w h w1 h1 o1 o2 Ha)
      as (a'' & Hca & Hwa); [lia.. |].
    rewrite Hca. by exists (Z.to_nat w1), (Z.to_nat h1), image'', label'', (Some a'').
  - by exists (Z.to_nat w1), (Z.to_nat h1), image'', label'', None.
Qed.

Lemma padded_by_shape (pw ph : nat) (a a' : ndarray) (d w h : nat) :
  padded_by pw ph a a' -> shape a = [d; w; h] ->
  shape a' = [d; pw + w + pw; ph + h + ph]%nat.
Proof.
  intros (d' & w' & h' & Hs & Hs' & _) Ha. rewrite Hs in Ha.
  by injection Ha as -> -> ->.
Qed.

(** On a sample whose image, label and sdf have three axes and agree on
    axes 1 and 2, [RandomCrop] never raises: it returns, for image, label
    and (exactly when [with_sdf]) sdf, the window of extents
    [output_size[1]] and [output_size[2]] of the zero-padded array, the
    same border and the same window position for all of them, and all of
    axis 0 whatever [output_size[0]] is. *)
Theorem RandomCrop_aligned_returns (output_size : list Z) (with_sdf : bool)
  (s : sample) (image label : ndarray) (d ld w h : nat) (o0 o1 o2 : Z)
  (orest : list Z) (g : rng) :
  s !! "image" = Some image ->
  s !! "label" = Some label ->
  shape image = [d; w; h] ->
  shape label = [ld; w; h] ->
  (with_sdf = true -> exists a sd, s !! "sdf" = Some a /\ shape a = [sd; w; h]) ->
  output_size = o0 :: o1 :: o2 :: orest ->
  0 <= o1 -> 0 <= o2 ->
  exists pw ph w1 h1 image' label' image'' label'',
    padded_by pw ph image image'
    /\ padded_by pw ph label label'
    /\ window_of w1 h1 (Z.to_nat o1) (Z.to_nat o2) image' image''
    /\ window_of w1 h1 (Z.to_nat o1) (Z.to_nat o2) label' label''
    /\ shape image'' = [d; Z.to_nat o1; Z.to_nat o2]
    /\ shape label'' = [ld; Z.to_nat o1; Z.to_nat o2]
    /\ if with_sdf then
         exists a a' a'',
           s !! "sdf" = Some a
           /\ padded_by pw ph a a'
           /\ window_of w1 h1 (Z.to_nat o1) (Z.to_nat o2) a' a''
           /\ (RandomCrop_call output_size with_sdf s g).1
              = Ok {[ "image" := image''; "label" := label''; "sdf" := a'' ]}
       else
         (RandomCrop_call output_size with_sdf s g).1
         = Ok {[ "image" := image''; "label" := label'' ]}.
Proof.
  intros Himage Hlabel Hi Hl Hsdf Hos Ho1 Ho2.
  set (sdf := if with_sdf then s !! "sdf" else None).
  assert (Hsdf_shape : forall a, sdf = Some a -> exists sd, shape a = [sd; w; h]).
  { subst sdf. destruct with_sdf; [|discriminate].
    destruct (Hsdf eq_refl) as (a & sd & Ha & Hsa). rewrite Ha.
    intros ? [= <-]. eauto. }
  destruct (RandomCrop_pad_padded output_size image label sdf d ld w h o0 o1 o2
              orest Hi Hl Hsdf_shape Hos)
    as (image' & label' & sdf' & Hpad & Hpi & Hpl & Hps & Hw & Hh).
  set (pw := if decide (Z.of_nat ld <= o0 \/ Z.of_nat w <= o1 \/ Z.of_nat h <= o2)
            then Z.to_nat (Z.max ((o1 - Z.of_nat w) / 2 + 3) 0) else O) in *.
  set (ph := if decide (Z.of_nat ld <= o0 \/ Z.of_nat w <= o1 \/ Z.of_nat h <= o2)
            then Z.to_nat (Z.max ((o2 - Z.of_nat h) / 2 + 3) 0) else O) in *.
  pose proof (padded_by_shape _ _ _ _ _ _ _ Hpi Hi) as Hi'.
  pose proof (padded_by_shape _ _ _ _ _ _ _ Hpl Hl) as Hl'.
  assert (Hsdf'_shape : forall a', sdf' = Some a' ->
            exists sd, shape a' = [sd; pw + w + pw; ph + h + ph]%nat).
  { intros a' ->. destruct sdf as [a|]; [|done].
    destruct (Hsdf_shape a eq_refl) as [sd Ha].
    exists sd. exact (padded_by_shape pw ph a a' sd w h Hps Ha). }
  destruct (RandomCrop_crop_windows output_size image' label' sdf'
              d ld (pw + w + pw) (ph + h + ph) o0 o1 o2 orest g
              Hi' Hl' Hsdf'_shape Hos)
    as (w1 & h1 & image'' & label'' & sdf'' & Hcrop & Hwi & Hwl & Hws);
    [lia | lia |].
  assert (Hcall : RandomCrop_call output_size with_sdf s g
                  = RandomCrop_crop output_size image' label' sdf' g).
  { unfold RandomCrop_call.
    rewrite (get_key_Some _ _ _ Himage), (get_key_Some _ _ _ Hlabel).
    subst sdf. destruct with_sdf.
    - destruct (Hsdf eq_refl) as (a & sd & Ha & _). rewrite Ha in Hpad.
      rewrite (get_key_Some _ _ _ Ha). unfold_M. simpl. by rewrite Hpad.
    - unfold_M. simpl. by rewrite Hpad. }
  exists pw, ph, w1, h1, image', label', image'', label''.
  split; [done |]. split; [done |]. split; [done |]. split; [done |].
  split.
  { destruct Hwi as (? & ? & ? & Hs1 & _ & _ & Hs2 & _).
    rewrite Hi' in Hs1. injection Hs1 as <- _ _. done. }
  split.
  { destruct Hwl as (? & ? & ? & Hs1 & _ & _ & Hs2 & _).
    rewrite Hl' in Hs1. injection Hs1 as <- _ _. done. }
  rewrite Hcall, Hcrop. subst sdf. destruct with_sdf.
  - destruct (Hsdf eq_refl) as (a & sd & Ha & _). rewrite Ha in Hps.
    destruct sdf' as [a'|]; [|done]. destruct sdf'' as [a''|]; [|done].
    by exists a, a', a''.
  - destruct sdf' as [a'|]; [done |]. by destruct sdf'' as [a''|].
Qed.

Lemma RandomCrop_aligned_returns_witness :
  exists image'' label'',
    (RandomCrop_call [1; 12; 4] false sample_chw g0).1
      = Ok {[ "image" := image''; "label" := label'' ]}
    /\ shape image'' = [1; 12; 4]%nat
    /\ shape label'' = [1; 12; 4]%nat.
Proof.
  destruct (RandomCrop_aligned_returns [1; 12; 4] false sample_chw
              (arange [1; 10; 9]%nat) (arange [1; 10; 9]%nat) 1 1 10 9 1 12 4 []
              g0 eq_refl eq_refl eq_refl eq_refl ltac:(discriminate) eq_refl
              ltac:(lia) ltac:(lia))
    as (pw & ph & w1 & h1 & image' & label' & image'' & label''
        & _ & _ & _ & _ & Hsi & Hsl & Hcall).
  exists image'', label''. split; [exact Hcall |]. split; [exact Hsi | exact Hsl].
Defined.

(** ** [RandomRotFlip] rearranges voxels *)

Lemma in_bounds_3_inv (a b c : nat) (idx : list nat) :
  in_bounds [a; b; c] idx ->
  exists i j k, idx = [i; j; k] /\ (i < a)%nat /\ (j < b)%nat /\ (k < c)%nat.
Proof.
  unfold in_bounds. intros H.
  apply Forall2_cons_inv_r in H as (i & idx1 & Hi & H & ->).
  apply Forall2_cons_inv_r in H as (j & idx2 & Hj & H & ->).
  apply Forall2_cons_inv_r in H as (k & idx3 & Hk & H & ->).
  apply Forall2_nil_inv_r in H as ->. by exists i, j, k.
Qed.

Lemma rearranged_refl (a : ndarray) : rearranged a a.
Proof. split; [done |]. exists (fun idx => idx). split; [done | auto]. Qed.

Lemma rearranged_trans (a b c : ndarray) :
  rearranged a b -> rearranged b c -> rearranged a c.
Proof.
  intros (Hs1 & f & Hf & Hfi) (Hs2 & f' & Hf' & Hfi').
  split; [by rewrite Hs2 |].
  exists (fun idx => f (f' idx)). split.
  - intros idx Hidx. destruct (Hf' idx Hidx) as [Hb ->]. by apply Hf.
  - intros idx1 idx2 H1 H2 Heq.
    apply Hfi', Hfi; [done | done | by apply Hf' | by apply Hf' | done].
Qed.

Lemma np_rot90_rearranged (a : ndarray) (d n1 n2 : nat) :
  shape a = [d; n1; n2] ->
  exists a', np_rot90 a = Ok a' /\ shape a' = [d; n2; n1] /\ rearranged a a'.
Proof.
  intros Hs. unfold np_rot90. rewrite Hs. eexists. split; [reflexivity |].
  split; [reflexivity |]. split.
  - cbn [shape]. rewrite Hs. apply Permutation_skip, Permutation_swap.
  - cbn [shape item]. rewrite Hs.
    exists (fun idx => match idx with
                       | c :: i :: j :: r => c :: j :: (n2 - 1 - i)%nat :: r
                       | _ => idx
                       end).
    split.
    + intros idx (c & i & j & -> & Hc & Hi & Hj)%in_bounds_3_inv.
      split; [apply in_bounds_3; lia | reflexivity].
    + intros idx1 idx2 (c & i & j & -> & Hc & Hi & Hj)%in_bounds_3_inv
        (c' & i' & j' & -> & Hc' & Hi' & Hj')%in_bounds_3_inv [= -> -> Heq].
      f_equal. f_equal. lia.
Qed.

Lemma rot90_times_rearranged (k : nat) (a : ndarray) (d n1 n2 : nat) :
  shape a = [d; n1; n2] ->
  exists a',
    rot90_times k a = Ok a'
    /\ shape a' = (if Nat.even k then [d; n1; n2] else [d; n2; n1])
    /\ rearranged a a'.
Proof.
  revert a n1 n2. induction k as [|k IH]; intros a n1 n2 Hs.
  - exists a. split; [reflexivity |]. split; [done | apply rearranged_refl].
  - destruct (np_rot90_rearranged a d n1 n2 Hs) as (a1 & Ha1 & Hs1 & Hr1).
    destruct (IH a1 n2 n1 Hs1) as (a' & Ha' & Hs' & Hr').
    exists a'. cbn [rot90_times]. rewrite Ha1. unfold_M.
    split; [exact Ha' |]. split; [|by eapply rearranged_trans].
    rewrite Hs', Nat.even_succ, <- Nat.negb_even. by destruct (Nat.even k).
Qed.

Lemma np_flip_rearranged (a : ndarray) (axis : Z) (d n1 n2 : nat) :
  shape a = [d; n1; n2] -> 0 <= axis < 2 ->
  exists a', np_flip a axis = Ok a' /\ shape a' = shape a /\ rearranged a a'.
Proof.
  intros Hs Hax. rewrite np_flip_Ok by (unfold ndim; rewrite Hs; simpl; lia).
  eexists. split; [reflexivity |]. split; [reflexivity |].
  split; [reflexivity |]. cbn [shape].
  eexists. split.
  - intros idx Hidx. split; [|reflexivity]. revert Hidx. rewrite Hs.
    intros (c & i & j & -> & Hc & Hi & Hj)%in_bounds_3_inv.
    unfold flip_index, wrap_index, ndim. rewrite Hs.
    destruct (Z.ltb_spec axis 0); [lia |].
    assert (axis = 0 \/ axis = 1) as [-> | ->] by lia;
      cbn; apply in_bounds_3; lia.
  - rewrite Hs.
    intros idx1 idx2 (c & i & j & -> & Hc & Hi & Hj)%in_bounds_3_inv
      (c' & i' & j' & -> & Hc' & Hi' & Hj')%in_bounds_3_inv.
    unfold flip_index, wrap_index, ndim. rewrite Hs.
    destruct (Z.ltb_spec axis 0); [lia |].
    assert (axis = 0 \/ axis = 1) as [-> | ->] by lia;
      cbn; intros [= ? ? ?]; f_equal; [lia | | | f_equal; [lia |]];
      congruence.
Qed.

Lemma rot_flip_rearranged (k : nat) (axis : Z) (a : ndarray) (d n1 n2 : nat) :
  shape a = [d; n1; n2] -> 0 <= axis < 2 ->
  exists a',
    rot_flip k axis a = Ok a'
    /\ shape a' = (if Nat.even k then [d; n1; n2] else [d; n2; n1])
    /\ rearranged a a'.
Proof.
  intros Hs Hax. unfold rot_flip.
  destruct (rot90_times_rearranged k a d n1 n2 Hs) as (a1 & -> & Hs1 & Hr1).
  unfold_M.
  assert (exists m1 m2, shape a1 = [d; m1; m2]) as (m1 & m2 & Hs1')
    by (destruct (Nat.even k); eauto).
  destruct (np_flip_rearranged a1 axis d m1 m2 Hs1' Hax) as (a' & Ha' & Hs' & Hr').
  exists a'. split; [exact Ha' |]. split; [by rewrite Hs' |].
  by eapply rearranged_trans.
Qed.

(** The draws of [RandomRotFlip] and what is done with them. *)
Lemma RandomRotFlip_call_draws (s : sample) (image label : ndarray)
  (d w h ld lw lh : nat) (g : rng) :
  s !! "image" = Some image ->
  s !! "label" = Some label ->
  shape image = [d; w; h] ->
  shape label = [ld; lw; lh] ->
  exists k axis image' label',
    0 <= k < 4 /\ 0 <= axis < 2
    /\ rot_flip (Z.to_nat k) axis image = Ok image'
    /\ rot_flip (Z.to_nat k) axis label = Ok label'
    /\ (RandomRotFlip_call s g).1
       = Ok {[ "image" := image'; "label" := label' ]}.
Proof.
  intros Himage Hlabel Hi Hl.
  pose proof (np_randint_cases 0 4 g) as Hk. case_decide; [|lia].
  destruct Hk as (k & Hk & Hkr).
  pose proof (np_randint_cases 0 2 (advance 1 g)) as Hax. case_decide; [|lia].
  destruct Hax as (axis & Hax & Haxr).
  destruct (rot_flip_rearranged (Z.to_nat k) axis image d w h Hi)
    as (image' & Hri & _); [lia |].
  destruct (rot_flip_rearranged (Z.to_nat k) axis label ld lw lh Hl)
    as (label' & Hrl & _); [lia |].
  exists k, axis, image', label'.
  split; [lia |]. split; [lia |]. split; [exact Hri |]. split; [exact Hrl |].
  unfold RandomRotFlip_call.
  rewrite (get_key_Some _ _ _ Himage), (get_key_Some _ _ _ Hlabel).
  unfold mbind at 1 2 3, M_bind, lift at 1 2. rewrite Hk.
  rewrite rot_loop_separate.
  revert Hri Hrl. unfold rot_flip. unfold mbind at 1 2, result_bind at 1 2.
  destruct (rot90_times (Z.to_nat k) image) as [i1|]; [|discriminate].
  destruct (rot90_times (Z.to_nat k) label) as [l1|]; [|discriminate].
  intros Hfi Hfl.
  unfold mbind at 1 2, M_bind, lift at 1. rewrite Hax. unfold_M.
  by rewrite Hfi, Hfl.
Qed.

(** On an image and a label of three axes [RandomRotFlip] always returns,
    and each returned array is a rearrangement of the voxels of its input:
    no value is lost, repeated or invented.  Axis 0 keeps its length; axes
    1 and 2 keep theirs or swap them, in the image and in the label
    alike. *)
Theorem RandomRotFlip_rearranges (s : sample) (image label : ndarray)
  (d w h ld lw lh : nat) (g : rng) :
  s !! "image" = Some image ->
  s !! "label" = Some label ->
  shape image = [d; w; h] ->
  shape label = [ld; lw; lh] ->
  exists image' label',
    (RandomRotFlip_call s g).1 = Ok {[ "image" := image'; "label" := label' ]}
    /\ rearranged image image'
    /\ rearranged label label'
    /\ ((shape image' = [d; w; h] /\ shape label' = [ld; lw; lh])
        \/ (shape image' = [d; h; w] /\ shape label' = [ld; lh; lw])).
Proof.
  intros Himage Hlabel Hi Hl.
  destruct (RandomRotFlip_call_draws s image label d w h ld lw lh g
              Himage Hlabel Hi Hl)
    as (k & axis & image' & label' & Hk & Hax & Hri & Hrl & Hcall).
  destruct (rot_flip_rearranged (Z.to_nat k) axis image d w h Hi)
    as (image2 & Hri2 & Hsi & Hrei); [lia |].
  destruct (rot_flip_rearranged (Z.to_nat k) axis label ld lw lh Hl)
    as (label2 & Hrl2 & Hsl & Hrel); [lia |].
  rewrite Hri in Hri2. injection Hri2 as <-.
  rewrite Hrl in Hrl2. injection Hrl2 as <-.
  exists image', label'. split; [exact Hcall |].
  split; [exact Hrei |]. split; [exact Hrel |].
  destruct (Nat.even (Z.to_nat k)); [left | right]; done.
Qed.

Lemma RandomRotFlip_rearranges_witness :
  exists image' label',
    (RandomRotFlip_call sample_chw g0).1
      = Ok {[ "image" := image'; "label" := label' ]}
    /\ rearranged (arange [1; 10; 9]%nat) image'
    /\ rearranged (arange [1; 10; 9]%nat) label'.
Proof.
  destruct (RandomRotFlip_rearranges sample_chw (arange [1; 10; 9]%nat)
              (arange [1; 10; 9]%nat) 1 10 9 1 10 9 g0
              eq_refl eq_refl eq_refl eq_refl)
    as (image' & label' & Hcall & Hi & Hl & _).
  exists image', label'. split; [exact Hcall |]. split; [exact Hi | exact Hl].
Defined.

(** ** [CreateOnehotLabel]: exclusive channels and refused inputs *)

(** At every voxel each channel is 0 or 1 and at most one channel is 1; a
    voxel whose label value is none of the classes [0, ..., num_classes - 1]
    (an ignore value, a fractional value) is 0 in every channel. *)
Theorem CreateOnehotLabel_exclusive (num_classes : Z) (s : sample)
  (image label : ndarray) (a b c : nat) :
  s !! "image" = Some image ->
  s !! "label" = Some label ->
  shape label = [a; b; c] ->
  0 <= num_classes ->
  exists onehot_label,
    CreateOnehotLabel_call num_classes s
      = Ok ({[ "image" := image; "label" := label;
               "onehot_label" := onehot_label ]} : sample)
    /\ forall i j k, (i < a)%nat -> (j < b)%nat -> (k < c)%nat ->
         (forall ch, (ch < Z.to_nat num_classes)%nat ->
            item onehot_label [ch; i; j; k] = 0%Q
            \/ item onehot_label [ch; i; j; k] = 1%Q)
         /\ (forall ch1 ch2,
               (ch1 < Z.to_nat num_classes)%nat ->
               (ch2 < Z.to_nat num_classes)%nat ->
               item onehot_label [ch1; i; j; k] = 1%Q ->
               item onehot_label [ch2; i; j; k] = 1%Q ->
               ch1 = ch2)
         /\ ((forall v, 0 <= v < num_classes ->
                ~ (item label [i; j; k] == inject_Z v)%Q) ->
             forall ch, (ch < Z.to_nat num_classes)%nat ->
               item onehot_label [ch; i; j; k] = 0%Q).
Proof.
  intros Himage Hlabel Hshape HC.
  destruct (CreateOnehotLabel_returns num_classes s image label a b c
              Himage Hlabel Hshape HC) as (oh & Hcall & Hs & Hitem).
  exists oh. split; [exact Hcall |].
  intros i j k Hi Hj Hk.
  assert (Hval : forall ch, (ch < Z.to_nat num_classes)%nat ->
            item oh [ch; i; j; k]
            = if Qeq_bool (item label [i; j; k]) (inject_Z (Z.of_nat ch))
              then 1%Q else 0%Q).
  { intros ch Hch. rewrite Hitem. case_decide; [|lia].
    by rewrite broadcast_src_in_bounds by by apply in_bounds_3. }
  split; [|split].
  - intros ch Hch. rewrite (Hval ch Hch). destruct (Qeq_bool _ _); auto.
  - intros ch1 ch2 H1 H2. rewrite (Hval ch1 H1), (Hval ch2 H2).
    destruct (Qeq_bool _ (inject_Z (Z.of_nat ch1))) eqn:Hq1; [|discriminate].
    destruct (Qeq_bool _ (inject_Z (Z.of_nat ch2))) eqn:Hq2; [|discriminate].
    intros _ _. apply Qeq_bool_eq in Hq1, Hq2. rewrite Hq1 in Hq2.
    assert (Z.of_nat ch1 = Z.of_nat ch2) by (by apply inject_Z_injective).
    lia.
  - intros Hnone ch Hch. rewrite (Hval ch Hch).
    destruct (Qeq_bool _ _) eqn:Hq; [|reflexivity].
    apply Qeq_bool_eq in Hq. by destruct (Hnone (Z.of_nat ch) ltac:(lia)).
Qed.

Lemma CreateOnehotLabel_exclusive_witness :
  exists onehot_label,
    CreateOnehotLabel_call 2 sample_sdf
      = Ok ({[ "image" := arange [1; 2; 2]%nat; "label" := arange [1; 2; 2]%nat;
               "onehot_label" := onehot_label ]} : sample)
    /\ item onehot_label [0; 0; 1; 1]%nat = 0%Q
    /\ item onehot_label [1; 0; 1; 1]%nat = 0%Q.
Proof.
  destruct (CreateOnehotLabel_exclusive 2 sample_sdf (arange [1; 2; 2]%nat)
              (arange [1; 2; 2]%nat) 1 2 2 eq_refl eq_refl eq_refl ltac:(lia))
    as (oh & Hcall & Hvox).
  exists oh. split; [exact Hcall |].
  destruct (Hvox 0 1 1 ltac:(lia) ltac:(lia) ltac:(lia))%nat as (_ & _ & Hnone).
  assert (Hout : forall v, 0 <= v < 2 ->
            ~ (item (arange [1; 2; 2]%nat) [0; 1; 1]%nat == inject_Z v)%Q).
  { intros v Hv Heq. change (inject_Z 3 == inject_Z v)%Q in Heq.
    assert (3 = v) by (by apply inject_Z_injective). lia. }
  split; apply (Hnone Hout); simpl; lia.
Defined.

(** [CreateOnehotLabel] raises [KeyError] without an [image] or a [label]
    key, [IndexError] on a label of fewer than three axes, and [ValueError]
    on a negative [num_classes]. *)
Theorem CreateOnehotLabel_raises (num_classes : Z) (s : sample) :
  (s !! "image" = None \/ s !! "label" = None ->
   CreateOnehotLabel_call num_classes s = Err KeyError)
  /\ (forall image label,
        s !! "image" = Some image -> s !! "label" = Some label ->
        (ndim label < 3)%nat ->
        CreateOnehotLabel_call num_classes s = Err IndexError)
  /\ (forall image label,
        s !! "image" = Some image -> s !! "label" = Some label ->
        (3 <= ndim label)%nat -> num_classes < 0 ->
        CreateOnehotLabel_call num_classes s = Err ValueError).
Proof.
  split; [|split].
  - unfold CreateOnehotLabel_call, get_key.
    intros [-> | Hl]; [reflexivity |].
    destruct (s !! "image"); [|reflexivity]. by rewrite Hl.
  - intros image label Himage Hlabel Hnd. unfold CreateOnehotLabel_call.
    rewrite (get_key_Some _ _ _ Himage), (get_key_Some _ _ _ Hlabel).
    unfold ndim in Hnd. unfold_M. unfold shape_at.
    destruct (shape label) as [|a [|b [|c rest]]]; simpl in Hnd; try lia.
    + by rewrite (py_index_short []) by (simpl; lia).
    + by rewrite py_index_0, (py_index_short [a]) by (simpl; lia).
    + by rewrite py_index_0, py_index_1, (py_index_short [a; b]) by (simpl; lia).
  - intros image label Himage Hlabel Hnd HC. unfold CreateOnehotLabel_call.
    rewrite (get_key_Some _ _ _ Himage), (get_key_Some _ _ _ Hlabel).
    unfold ndim in Hnd. unfold_M. unfold shape_at.
    destruct (shape label) as [|a [|b [|c rest]]]; simpl in Hnd; try lia.
    rewrite py_index_0, py_index_1, py_index_2. unfold np_zeros. cbn [existsb].
    by destruct (Z.ltb_spec num_classes 0); [|lia].
Qed.

Lemma CreateOnehotLabel_raises_witness :
  CreateOnehotLabel_call (-1) sample_sdf = Err ValueError
  /\ CreateOnehotLabel_call 2 ({[ "image" := arange [2; 2]%nat;
                                  "label" := arange [2; 2]%nat ]} : sample)
     = Err IndexError
  /\ CreateOnehotLabel_call 2 ({[ "image" := arange [2; 2]%nat ]} : sample)
     = Err KeyError.
Proof.
  split; [|split].
  - apply (proj2 (proj2 (CreateOnehotLabel_raises (-1) sample_sdf))
             (arange [1; 2; 2]%nat) (arange [1; 2; 2]%nat));
      [reflexivity | reflexivity | unfold ndim; simpl; lia | lia].
  - apply (proj1 (proj2 (CreateOnehotLabel_raises 2 _))
             (arange [2; 2]%nat) (arange [2; 2]%nat));
      [reflexivity | reflexivity | unfold ndim; simpl; lia].
  - apply (proj1 (CreateOnehotLabel_raises 2 _)). right. reflexivity.
Defined.

(** ** Construction of the [Drive] dataset *)

Lemma forallb_index_ok (m : nat) (ids : list Z) :
  Forall (fun id => 0 <= id < Z.of_nat m) ids ->
  forallb (index_ok m) ids = true.
Proof.
  induction 1 as [|id ids Hid _ IH]; [reflexivity |].
  cbn [forallb]. rewrite IH, index_ok_in_range by lia. reflexivity.
Qed.

(** Reordering on axis 0 by an array of valid indices. *)
Lemma np_getitem_fancy (a : ndarray) (ids : list Z) (m c h w : nat)
  (rest : list nat) :
  shape a = m :: c :: h :: w :: rest ->
  Forall (fun id => 0 <= id < Z.of_nat m) ids ->
  exists a',
    np_getitem a [Fancy ids; Slice None None; Slice None None; Slice None None]
      = Ok a'
    /\ shape a' = length ids :: c :: h :: w :: rest
    /\ forall i id p, ids !! i = Some id ->
         item a' (i :: p) = item a (Z.to_nat id :: p).
Proof.
  intros Hs Hids. unfold np_getitem. rewrite Hs. cbn [getitem_view].
  rewrite (forallb_index_ok m ids Hids), !slice_indices_full. unfold_M.
  cbn [fst snd]. eexists. split; [reflexivity |]. split; [reflexivity |].
  intros i id p Hi. cbn [item].
  rewrite (nth_lookup_Some ids i 0 id Hi).
  assert (Hid : 0 <= id < Z.of_nat m)
    by (eapply (proj1 (Forall_lookup _ _) Hids); exact Hi).
  replace (wrap_index m id) with (Z.to_nat id)
    by (unfold wrap_index; destruct (Z.ltb_spec id 0); lia).
  by destruct p as [|? [|? [|? ?]]].
Qed.

Lemma py_range_bounds (n : nat) :
  Forall (fun id => 0 <= id < Z.of_nat n) (py_range (Z.of_nat n)).
Proof.
  unfold py_range. rewrite Nat2Z.id. apply Forall_fmap, Forall_seq.
  intros j Hj. simpl. lia.
Qed.

Lemma to_nat_py_range (n : nat) : Z.to_nat <$> py_range (Z.of_nat n) = seq 0 n.
Proof.
  unfold py_range. rewrite Nat2Z.id, <- list_fmap_compose.
  rewrite <- (list_fmap_id (seq 0 n)) at 2.
  apply Forall_fmap_ext, Forall_forall. intros j _. simpl. lia.
Qed.

(** [__init__] reorders the three loaded arrays by one permutation of
    [range(len(images))]: position [i] of the dataset holds the image, the
    label and the mask that were loaded at one common position [j], every
    loaded position is used once, and [__len__] is the number of loaded
    images.  Labels and masks loaded beyond that number are left out. *)
Theorem Drive_init_reorders (il ll ml : ndarray)
  (t : option (sample -> M sample)) (g : rng)
  (n ic ih iw nl lc lh lw nm mc mh mw : nat) (irest lrest mrest : list nat) :
  shape il = n :: ic :: ih :: iw :: irest ->
  shape ll = nl :: lc :: lh :: lw :: lrest ->
  shape ml = nm :: mc :: mh :: mw :: mrest ->
  (n <= nl)%nat -> (n <= nm)%nat ->
  exists self g' order,
    Drive_init (il, ll, ml) t g = (Ok self, g')
    /\ order ≡ₚ seq 0 n
    /\ Drive_len self = Ok n
    /\ transform self = t
    /\ shape (image_list self) = n :: ic :: ih :: iw :: irest
    /\ shape (label_list self) = n :: lc :: lh :: lw :: lrest
    /\ shape (mask_list self) = n :: mc :: mh :: mw :: mrest
    /\ forall i j, order !! i = Some j ->
         forall p,
           item (image_list self) (i :: p) = item il (j :: p)
           /\ item (label_list self) (i :: p) = item ll (j :: p)
           /\ item (mask_list self) (i :: p) = item ml (j :: p).
Proof.
  intros Hil Hll Hml Hnl Hnm. unfold Drive_init, np_len. rewrite Hil.
  destruct (np_permutation_spec (py_range (Z.of_nat n)) g) as (ids & Hp & Hperm).
  unfold mbind at 1 2, M_bind, lift at 1. rewrite Hp.
  assert (Hids : Forall (fun id => 0 <= id < Z.of_nat n) ids)
    by (rewrite Hperm; apply py_range_bounds).
  assert (Hlen : length ids = n).
  { rewrite Hperm. unfold py_range. by rewrite length_fmap, length_seq, Nat2Z.id. }
  destruct (np_getitem_fancy il ids n ic ih iw irest Hil Hids)
    as (il' & Hgi & Hsi & Hii).
  destruct (np_getitem_fancy ll ids nl lc lh lw lrest Hll)
    as (ll' & Hgl & Hsl & Hli);
    [eapply Forall_impl; [exact Hids |]; simpl; intros; lia |].
  destruct (np_getitem_fancy ml ids nm mc mh mw mrest Hml)
    as (ml' & Hgm & Hsm & Hmi);
    [eapply Forall_impl; [exact Hids |]; simpl; intros; lia |].
  unfold_M. rewrite Hgi, Hgl, Hgm.
  eexists _, _, (Z.to_nat <$> ids). split; [reflexivity |].
  split; [by rewrite Hperm, to_nat_py_range |].
  cbn [transform image_list label_list mask_list].
  split; [by unfold Drive_len, np_len; cbn [image_list]; rewrite Hsi, Hlen |].
  split; [done |]. rewrite Hsi, Hsl, Hsm, Hlen.
  split; [done |]. split; [done |]. split; [done |].
  intros i j Hj p. apply list_lookup_fmap_Some in Hj as (id & -> & Hid).
  by rewrite (Hii i id p Hid), (Hli i id p Hid), (Hmi i id p Hid).
Qed.

Lemma Drive_init_reorders_witness :
  exists self g' order,
    Drive_init loaded0 None g0 = (Ok self, g')
    /\ order ≡ₚ seq 0 2
    /\ Drive_len self = Ok 2%nat
    /\ shape (label_list self) = [2; 3; 2; 2]%nat.
Proof.
  destruct (Drive_init_reorders (arange [2; 1; 2; 2]%nat)
              (arange [2; 3; 2; 2]%nat) (arange [2; 1; 2; 2]%nat) None g0
              2 1 2 2 2 3 2 2 2 1 2 2 [] [] []
              eq_refl eq_refl eq_refl ltac:(lia) ltac:(lia))
    as (self & g' & order & Hinit & Hperm & Hlen & _ & _ & Hsl & _).
  exists self, g', order.
  split; [exact Hinit |]. split; [exact Hperm |]. split; [exact Hlen | exact Hsl].
Defined.

(** When fewer labels or fewer masks than images were loaded, [__init__]
    raises [IndexError]. *)
Theorem Drive_init_too_few_raises (il ll ml : ndarray)
  (t : option (sample -> M sample)) (g : rng)
  (n ic ih iw nl lc lh lw nm mc mh mw : nat) (irest lrest mrest : list nat) :
  shape il = n :: ic :: ih :: iw :: irest ->
  shape ll = nl :: lc :: lh :: lw :: lrest ->
  shape ml = nm :: mc :: mh :: mw :: mrest ->
  (nl < n)%nat \/ (nm < n)%nat ->
  (Drive_init (il, ll, ml) t g).1 = Err IndexError.
Proof.
  intros Hil Hll Hml Hfew. unfold Drive_init, np_len. rewrite Hil.
  destruct (np_permutation_spec (py_range (Z.of_nat n)) g) as (ids & Hp & Hperm).
  unfold mbind at 1 2, M_bind, lift at 1. rewrite Hp.
  assert (Hids : Forall (fun id => 0 <= id < Z.of_nat n) ids)
    by (rewrite Hperm; apply py_range_bounds).
  destruct (np_getitem_fancy il ids n ic ih iw irest Hil Hids)
    as (il' & Hgi & _).
  assert (Hmiss : forall m : nat, (m < n)%nat -> forallb (index_ok m) ids = false).
  { intros m Hm. destruct (forallb (index_ok m) ids) eqn:Hall; [|reflexivity].
    exfalso. rewrite forallb_forall in Hall.
    assert (Hin : Z.of_nat m ∈ ids).
    { rewrite Hperm. unfold py_range. rewrite Nat2Z.id.
      apply list_elem_of_fmap_2, elem_of_seq. lia. }
    apply list_elem_of_In, Hall in Hin. revert Hin. unfold index_ok.
    destruct (Z.ltb_spec (Z.of_nat m) (Z.of_nat m)); [lia |].
    by rewrite andb_false_r. }
  assert (Hgl : forall a m c h w rest,
            shape a = m :: c :: h :: w :: rest -> (m < n)%nat ->
            np_getitem a [Fancy ids; Slice None None; Slice None None;
                          Slice None None] = Err IndexError).
  { intros a m c h w rest Ha Hm. unfold np_getitem. rewrite Ha.
    cbn [getitem_view]. by rewrite (Hmiss m Hm). }
  unfold_M. rewrite Hgi. cbn [fst].
  destruct (decide (nl < n)%nat) as [Hl|Hl].
  - by rewrite (Hgl ll nl lc lh lw lrest Hll Hl).
  - destruct (np_getitem_fancy ll ids nl lc lh lw lrest Hll)
      as (ll' & -> & _);
      [eapply Forall_impl; [exact Hids |]; simpl; intros; lia |].
    cbn [fst]. rewrite (Hgl ml nm mc mh mw mrest Hml) by lia. reflexivity.
Qed.

Lemma Drive_init_too_few_raises_witness :
  (Drive_init (arange [2; 1; 2; 2]%nat, arange [1; 1; 2; 2]%nat,
               arange [2; 1; 2; 2]%nat) None g0).1 = Err IndexError.
Proof.
  apply (Drive_init_too_few_raises (arange [2; 1; 2; 2]%nat)
           (arange [1; 1; 2; 2]%nat) (arange [2; 1; 2; 2]%nat) None g0
           2 1 2 2 1 1 2 2 2 1 2 2 [] [] [] eq_refl eq_refl eq_refl).
  left. lia.
Defined.

(** ** [grouper] and the secondary stream *)

Lemma grouper_next_array (n : Z) (l : list Z) (g : rng) :
  0 < n ->
  grouper_next array_next n l g =
    (Ok (if decide (Z.to_nat n <= length l)%nat
         then Some (take (Z.to_nat n) l, drop (Z.to_nat n) l) else None), g).
Proof.
  intros Hn. unfold grouper_next.
  destruct (Z.leb_spec n 0); [lia |]. apply pull_array.
Qed.

(** [grouper] over an array, as its docstring says
    ([grouper('ABCDEFG', 3) --> ABC DEF]): for [n > 0] the chunks are the
    successive runs of [n] elements, [len(l) // n] of them, and the fewer
    than [n] elements left at the end are dropped; for [n <= 0] there is no
    chunk at all.  No random number is drawn. *)
Theorem grouper_chunks (n : Z) (l : list Z) (fuel : nat) (g : rng) :
  (length l < fuel)%nat ->
  (n <= 0 -> drain fuel (grouper_next array_next n) l g = (Ok [], g))
  /\ (0 < n ->
      exists chunks rest,
        drain fuel (grouper_next array_next n) l g = (Ok chunks, g)
        /\ Forall (fun c => Z.of_nat (length c) = n) chunks
        /\ concat chunks ++ rest = l
        /\ Z.of_nat (length rest) < n
        /\ Z.of_nat (length chunks) = Z.of_nat (length l) / n).
Proof.
  intros Hfuel. split.
  - intros Hn. destruct fuel as [|fuel]; [lia |].
    cbn [drain]. unfold grouper_next.
    destruct (Z.leb_spec n 0); [reflexivity | lia].
  - intros Hn.
    assert (Hmain : exists chunks rest,
              drain fuel (grouper_next array_next n) l g = (Ok chunks, g)
              /\ Forall (fun c => length c = Z.to_nat n) chunks
              /\ concat chunks ++ rest = l
              /\ (length rest < Z.to_nat n)%nat).
    { revert l Hfuel. induction fuel as [|fuel IH]; intros l Hfuel; [lia |].
      cbn [drain]. unfold mbind at 1, M_bind.
      rewrite grouper_next_array by done.
      case_decide as Hk.
      - destruct (IH (drop (Z.to_nat n) l)) as (chunks & rest & Hd & Hl & Hc & Hr);
          [rewrite length_drop; lia |].
        unfold mbind, M_bind. rewrite Hd.
        exists (take (Z.to_nat n) l :: chunks), rest.
        split; [reflexivity |].
        split; [constructor; [rewrite length_take; lia | done] |].
        split; [|done]. cbn [concat].
        by rewrite <- (assoc_L (++)), Hc, take_drop.
      - exists [], l. repeat split; [constructor | lia]. }
    destruct Hmain as (chunks & rest & Hd & Hl & Hc & Hr).
    exists chunks, rest. split; [exact Hd |].
    split; [eapply Forall_impl; [exact Hl |]; simpl; intros; lia |].
    split; [exact Hc |]. split; [lia |].
    assert (Hlen : length (concat chunks) = (Z.to_nat n * length chunks)%nat).
    { clear -Hl. induction Hl as [|c cs Hc _ IH]; [simpl; lia |].
      cbn [concat length]. rewrite length_app, IH, Hc. lia. }
    apply (f_equal length) in Hc. rewrite length_app, Hlen in Hc.
    apply Z.div_unique with (r := Z.of_nat (length rest)); lia.
Qed.

Lemma grouper_chunks_witness :
  exists chunks rest,
    drain 8 (grouper_next array_next 3) [65; 66; 67; 68; 69; 70; 71] g0
      = (Ok chunks, g0)
    /\ Forall (fun c => Z.of_nat (length c) = 3) chunks
    /\ concat chunks ++ rest = [65; 66; 67; 68; 69; 70; 71]
    /\ Z.of_nat (length rest) < 3
    /\ Z.of_nat (length chunks) = Z.of_nat 7 / 3.
Proof.
  apply (proj2 (grouper_chunks 3 [65; 66; 67; 68; 69; 70; 71] 8 g0
                  ltac:(simpl; lia))).
  lia.
Defined.

Section secondary_stream.

Variable self : TwoStreamBatchSampler.
Local Abbreviation n := (Z.to_nat (primary_batch_size self)).
Local Abbreviation m := (Z.to_nat (secondary_batch_size self)).
Local Abbreviation si := (secondary_indices self).
Hypothesis primary_pos : 0 < primary_batch_size self.
Hypothesis secondary_pos : 0 < secondary_batch_size self.
Hypothesis secondary_nonempty : si <> [].

(** A new shuffle is drawn only when the previous one is used up. *)
Lemma iterate_eternally_next_stream (buf : list Z) (g : rng) :
  (length buf < length si)%nat ->
  exists x buf' g' shuffles,
    iterate_eternally_next si buf g = (Ok (Some (x, buf')), g')
    /\ Forall (fun p => p ≡ₚ si) shuffles
    /\ x :: buf' = buf ++ concat shuffles
    /\ (length buf' < length si)%nat.
Proof.
  intros Hbuf. destruct buf as [|x buf]; simpl.
  - destruct (np_permutation_spec si g) as (p & Hp & Hperm).
    unfold_M. rewrite Hp. destruct p as [|x p].
    + apply Permutation_nil_l in Hperm. by symmetry in Hperm.
    + exists x, p, (advance (length si) g), [x :: p].
      split; [reflexivity |]. split; [by constructor |].
      split; [simpl; by rewrite app_nil_r |].
      rewrite <- Hperm. simpl. lia.
  - exists x, buf, g, []. split; [reflexivity |]. split; [constructor |].
    split; [simpl; by rewrite app_nil_r |]. simpl in Hbuf. lia.
Qed.

Lemma pull_eternal_stream (k : nat) (buf : list Z) (g : rng) :
  (length buf < length si)%nat ->
  exists xs buf' g' shuffles,
    pull (iterate_eternally_next si) k buf g = (Ok (Some (xs, buf')), g')
    /\ length xs = k
    /\ Forall (fun p => p ≡ₚ si) shuffles
    /\ xs ++ buf' = buf ++ concat shuffles
    /\ (length buf' < length si)%nat.
Proof.
  revert buf g. induction k as [|k IH]; intros buf g Hbuf; simpl.
  - exists [], buf, g, []. repeat split; [constructor | by rewrite app_nil_r | done].
  - destruct (iterate_eternally_next_stream buf g Hbuf)
      as (x & buf1 & g1 & sh1 & Hnext & Hsh1 & Heq1 & Hbuf1).
    destruct (IH buf1 g1 Hbuf1)
      as (xs & buf2 & g2 & sh2 & Hpull & Hlen & Hsh2 & Heq2 & Hbuf2).
    exists (x :: xs), buf2, g2, (sh1 ++ sh2). unfold_M. rewrite Hnext, Hpull.
    split; [reflexivity |]. split; [simpl; lia |].
    split; [by apply Forall_app |]. split; [|done].
    rewrite concat_app, (assoc_L (++)), <- Heq1. simpl. by rewrite Heq2.
Qed.

Lemma drain_secondary_stream (fuel : nat) (prim buf : list Z) (g : rng) :
  (length prim < fuel)%nat ->
  (length buf < length si)%nat ->
  exists batches g' shuffles buf',
    drain fuel (TwoStreamBatchSampler_next self) (prim, buf) g
      = (Ok batches, g')
    /\ Forall (fun p => p ≡ₚ si) shuffles
    /\ concat (drop n <$> batches) ++ buf' = buf ++ concat shuffles
    /\ (length buf' < length si)%nat.
Proof.
  revert prim buf g. induction fuel as [|fuel IH]; intros prim buf g Hfuel Hbuf;
    [lia |].
  cbn [drain]. unfold mbind at 1, M_bind.
  unfold TwoStreamBatchSampler_next at 1, grouper_next. cbn [fst snd].
  destruct (Z.leb_spec (primary_batch_size self) 0) as [|_]; [lia |].
  destruct (Z.leb_spec (secondary_batch_size self) 0) as [|_]; [lia |].
  unfold mbind at 1, M_bind. rewrite pull_array.
  case_decide as Hk.
  - destruct (pull_eternal_stream m buf g Hbuf)
      as (xs & buf1 & g1 & sh1 & Hpull & Hlen & Hsh1 & Heq1 & Hbuf1).
    unfold mbind at 1, M_bind. rewrite Hpull. unfold mret at 1, M_ret.
    destruct (IH (drop n prim) buf1 g1)
      as (bs & g2 & sh2 & buf2 & Hdrain & Hsh2 & Heq2 & Hbuf2);
      [rewrite length_drop; lia | done |].
    unfold mbind, M_bind. rewrite Hdrain.
    exists ((take n prim ++ xs) :: bs), g2, (sh1 ++ sh2), buf2.
    split; [reflexivity |]. split; [by apply Forall_app |]. split; [|done].
    rewrite fmap_cons. cbn [concat].
    rewrite drop_app_length' by (rewrite length_take; lia).
    rewrite <- (assoc_L (++)), Heq2, (assoc_L (++)), Heq1, concat_app.
    by rewrite (assoc_L (++)).
  - exists [], g, [], buf. split; [reflexivity |]. split; [constructor |].
    split; [simpl; by rewrite app_nil_r | done].
Qed.

End secondary_stream.

(** The secondary entries of one epoch, read batch after batch, are taken
    in order from successive whole shuffles of [secondary_indices]: together
    with the unread rest of the last shuffle they are a concatenation of
    permutations of the pool.  An index can thus come back only after the
    shuffle it was in is used up. *)
Theorem TwoStreamBatchSampler_secondary_stream (pi si : list Z) (bs sbs : Z)
  (self : TwoStreamBatchSampler) (g g' : rng) (batches : list (list Z)) :
  TwoStreamBatchSampler_init pi si bs sbs = Ok self ->
  TwoStreamBatchSampler_epoch self g = (Ok batches, g') ->
  exists shuffles unread,
    Forall (fun p => p ≡ₚ si) shuffles
    /\ concat (drop (Z.to_nat (bs - sbs)) <$> batches) ++ unread
       = concat shuffles
    /\ (length unread < length si)%nat.
Proof.
  intros Hinit Hepoch.
  pose proof (TwoStreamBatchSampler_init_cases pi si bs sbs) as Hcases.
  simpl in Hcases. case_decide as Hpre; [|congruence].
  destruct Hpre as [[Hp1 Hp2] [Hs1 Hs2]].
  rewrite Hinit in Hcases. injection Hcases as ->.
  revert Hepoch.
  unfold TwoStreamBatchSampler_epoch, TwoStreamBatchSampler_iter, iterate_once.
  cbn [primary_indices].
  destruct (np_permutation_spec pi g) as (p & Hp & Hperm).
  unfold mbind at 1 2, M_bind. rewrite Hp. unfold mret at 1, M_ret.
  edestruct (drain_secondary_stream
               {| primary_indices := pi; secondary_indices := si;
                  secondary_batch_size := sbs; primary_batch_size := bs - sbs |}
               Hp2 Hs2) with (fuel := S (length pi)) (prim := p) (buf := @nil Z)
    as (batches' & g2 & shuffles & unread & Hdrain & Hsh & Heq & Hun).
  { simpl. destruct si; [simpl in Hs1; lia | done]. }
  { rewrite Hperm. lia. }
  { simpl. destruct si; [simpl in Hs1; lia | simpl; lia]. }
  rewrite Hdrain. intros [= <- <-].
  exists shuffles, unread. simpl in *. done.
Qed.

Lemma TwoStreamBatchSampler_secondary_stream_witness :
  exists batches shuffles unread,
    (TwoStreamBatchSampler_epoch sampler0 g0).1 = Ok batches
    /\ Forall (fun p => p ≡ₚ [10; 11]) shuffles
    /\ concat (drop (Z.to_nat (4 - 2)) <$> batches) ++ unread = concat shuffles
    /\ (length unread < 2)%nat.
Proof.
  destruct (TwoStreamBatchSampler_epoch sampler0 g0) as [[batches|e] g'] eqn:Hrun;
    [|exfalso; revert Hrun; vm_compute; discriminate].
  destruct (TwoStreamBatchSampler_secondary_stream [0; 1; 2; 3; 4] [10; 11] 4 2
              sampler0 g0 g' batches eq_refl Hrun)
    as (shuffles & unread & Hsh & Heq & Hun).
  exists batches, shuffles, unread.
  split; [reflexivity |]. split; [exact Hsh |]. split; [exact Heq | exact Hun].
Defined.
